(** * mirage/yaml/write_observationlist.py: [write_yaml]

    A shallow embedding of [write_yaml], the function that turns an APT
    proposal (observation nodes plus the flattened exposure table) into an
    observation list file, and the properties of it that the specification
    states.

    Conventions of the embedding.
    - Python [str] is [string]; Python [int] is [nat] where the source
      only counts or indexes ([enumerate], [len], [range]) and [Z] inside
      observation identifiers.
    - A Python [dict] keyed by observation identifier is a [gmap]; only
      [d[k]], [d[k] = v] and [len(d)] are used on it by the source.
    - [print] appends one entry to [stdout]; the output file lives in [fs].
    - Exceptions are the [Raise] outcome of the monad [M].
    - The iteration order of a Python [set] is not specified by the language
      (for strings it changes with the hash seed), so it is a parameter
      [set_order] of the embedding. *)

From Stdlib Require Import Ascii.
From stdpp Require Import base list strings gmap pretty sorting.

Open Scope string_scope.
Open Scope list_scope.

(** ** Data *)

(** Line feed, the ["\n"] of the source's string literals. *)
Definition LF : string := String "010"%char EmptyString.

(** Modelled from the spec: the observation nodes that [lxml] finds under
    [DataRequests]; of each node the source reads the text of [Instrument]
    and of [Label] (reader contract, section 6 of the specification). *)
Record node := Node { Instrument_text : string; Label_text : string }.

(** Observation identifiers are opaque keys produced by the reader. The
    source looks them up with Python integers, which are equal to integer
    keys only; a string key never equals an integer. *)
Inductive obs_id :=
| IdInt (n : Z)
| IdStr (s : string).

#[global] Instance obs_id_eq_dec : EqDecision obs_id.
Proof. solve_decision. Defined.

Definition obs_id_to_sum (k : obs_id) : Z + string :=
  match k with IdInt n => inl n | IdStr s => inr s end.

Definition obs_id_of_sum (x : Z + string) : obs_id :=
  match x with inl n => IdInt n | inr s => IdStr s end.

#[global] Instance obs_id_countable : Countable obs_id.
Proof.
  apply (inj_countable' obs_id_to_sum obs_id_of_sum).
  intros []; reflexivity.
Defined.

(** Modelled from the spec: the dictionary returned by
    [read_apt_xml.ReadAPTXML().read_xml], which is not part of the sources.
    It is taken to hold the columns of the reader contract, one entry per
    exposure. The columns are separate lists, as in the source; nothing
    forces them to have the same length. *)
Record table := Table {
  Instrument : list string;
  ShortFilter : list string;
  LongFilter : list string;
  PupilWheel : list string;
  TileNumber : list Z;
  ObservationID : list obs_id
}.

(** [catalog_files : str or list(str)]. *)
Inductive catalog_arg :=
| CatStr (s : string)
| CatList (l : list string).

Inductive exn :=
| NotImplementedError
| ValueError (msg : string)
| TypeError
| IndexError
| KeyError (k : obs_id)
| UnboundLocalError (var : string).

Record world := World {
  stdout : list string;
  fs : gmap string string
}.

(** ** Outcomes and the monad *)

(** A computation that may raise, and touches neither [stdout] nor the
    file system: indexing, key lookup, [len]. *)
Inductive result (A : Type) :=
| Ok (a : A)
| Raise (e : exn).
Arguments Ok {A} a.
Arguments Raise {A} e.

#[global] Instance result_ret : MRet result := λ A a, Ok a.

#[global] Instance result_bind : MBind result := λ A B f r,
  match r with
  | Ok a => f a
  | Raise e => Raise e
  end.

(** A computation that may also print and write files. *)
Definition M (A : Type) : Type := world → result A * world.

#[global] Instance M_ret : MRet M := λ A a w, (Ok a, w).

#[global] Instance M_bind : MBind M := λ A B f c w,
  match c w with
  | (Ok a, w') => f a w'
  | (Raise e, w') => (Raise e, w')
  end.

Definition lift {A} (r : result A) : M A := λ w, (r, w).

Definition raise {A} (e : exn) : M A := lift (Raise e).

Definition print (s : string) : M unit :=
  λ w, (Ok tt, {| stdout := stdout w ++ [s]; fs := fs w |}).

(** The content of a file into which the lines were written one after the
    other. *)
Definition text (lines : list string) : string :=
  String.concat EmptyString lines.

(** [f = open(path, 'w'); for line in write: f.write(line); f.close()] *)
Definition write_file (path : string) (write : list string) : M unit :=
  λ w, (Ok tt, {| stdout := stdout w; fs := <[path := text write]> (fs w) |}).

(** [for x in l: s = body(x, s)], in either monad. *)
Fixpoint foldM {T : Type → Type} `{!MBind T, !MRet T} {A S : Type}
    (body : A → S → T S) (l : list A) (s : S) : T S :=
  match l with
  | [] => mret s
  | x :: l' => s' ← body x s; foldM body l' s'
  end.

(** [l[i]] on a list. *)
Definition getitem {A} (l : list A) (i : nat) : result A :=
  match l !! i with
  | Some x => Ok x
  | None => Raise IndexError
  end.

(** [d[k]] on a dictionary. *)
Definition getkey {A} (d : gmap obs_id A) (k : obs_id) : result A :=
  match d !! k with
  | Some x => Ok x
  | None => Raise (KeyError k)
  end.

(** [len(x)] where [x] may be [None]. *)
Definition len_opt {A} (x : option (list A)) : result nat :=
  match x with
  | Some l => Ok (length l)
  | None => Raise TypeError
  end.

(** [x[i]] where [x] may be [None]. *)
Definition getitem_opt {A} (x : option (list A)) (i : nat) : result A :=
  match x with
  | Some l => getitem l i
  | None => Raise TypeError
  end.

(** ** Strings *)

(** [sub in s] *)
Fixpoint contains (sub s : string) : bool :=
  String.prefix sub s ||
  match s with
  | EmptyString => false
  | String _ s' => contains sub s'
  end.

(** [re.split(r' \(|\)', s)[0]]: the text before the leftmost place where
    [" ("] or [")"] starts; the whole string when there is none. *)
Fixpoint re_split_head (s : string) : string :=
  match s with
  | EmptyString => EmptyString
  | String c s' =>
      if String.prefix " (" s || String.prefix ")" s then EmptyString
      else String c (re_split_head s')
  end.

(** Lines 67-70: the observation name derived from the label. *)
Definition obs_name (label : string) : string :=
  if contains " (" label && contains ")" label
  then re_split_head label
  else label.

(** [str(k)] of an observation identifier. *)
Definition str_id (k : obs_id) : string :=
  match k with
  | IdInt n => pretty n
  | IdStr s => s
  end.

(** ['{:<w}'.format(s)] and ['{:>w}'.format(s)] *)
Definition ljust (w : nat) (s : string) : string :=
  s +:+ String.concat EmptyString (replicate (w - String.length s) " ").
Definition rjust (w : nat) (s : string) : string :=
  String.concat EmptyString (replicate (w - String.length s) " ") +:+ s.

(** [str(l)] of a list of integers: ["[2, 1, 3]"]. *)
Definition str_list (l : list nat) : string :=
  "[" +:+ String.concat ", " (pretty <$> l) +:+ "]".

(** ** Selection of the observations (lines 54-72) *)

Definition supported : list string := ["NIRCAM"; "WFSC"; "NIRISS"; "FGS"].

Record selection := Selection {
  observations : list node;
  i_observations : list nat;
  obs_names : list string;
  instruments : list string
}.

Definition enumerate {A} (l : list A) : list (nat * A) :=
  zip (seq 0 (length l)) l.

Definition select_step (sel : selection) (io : nat * node) : selection :=
  let '(i_obs, o) := io in
  let instrument := Instrument_text o in
  if bool_decide (instrument ∈ supported) then
    {| observations := observations sel ++ [o];
       i_observations := i_observations sel ++ [i_obs];
       obs_names := obs_names sel ++ [obs_name (Label_text o)];
       instruments := instruments sel ++ [instrument] |}
  else sel.

Definition select (obs_results : list node) : selection :=
  foldl select_step (Selection [] [] [] []) (enumerate obs_results).

(** ** [np.unique] on a column of strings: sorted, without duplicates *)

Fixpoint insert_unique (x : string) (l : list string) : list string :=
  match l with
  | [] => [x]
  | y :: l' =>
      match String.compare x y with
      | Eq => l
      | Lt => x :: l
      | Gt => y :: insert_unique x l'
      end
  end.

Definition np_unique (l : list string) : list string :=
  foldr insert_unique [] l.

(** ** Boolean-mask indexing of a numpy array *)

Fixpoint mask_select {A} (arr : list A) (mask : list bool) : list A :=
  match arr, mask with
  | x :: arr', b :: mask' =>
      if b then x :: mask_select arr' mask' else mask_select arr' mask'
  | _, _ => []
  end.

(** [arr[mask]]: numpy refuses a mask whose length is not the array's. *)
Definition np_getmask {A} (arr : list A) (mask : list bool) : result (list A) :=
  if bool_decide (length arr = length mask) then Ok (mask_select arr mask)
  else Raise IndexError.

(** ** Default values (lines 97-109 and 134-145) *)

Definition date : string := "2019-07-04".
Definition PAV3 : string := "0.".
Definition GalaxyCatalog : string := "None".
Definition ExtendedCatalog : string := "None".
Definition ExtendedScale : string := "1.0".
Definition ExtendedCenter : string := "1024,1024".
Definition MovingTargetList : string := "None".
Definition MovingTargetSersic : string := "None".
Definition MovingTargetExtended : string := "None".
Definition MovingTargetConvolveExtended : string := "True".
Definition MovingTargetToTrack : string := "None".
Definition BackgroundRate_sw : string := "0.5".
Definition BackgroundRate_lw : string := "1.2".
Definition BackgroundRate : string := "0.5".

(** ** Grouping of the exposure table by observation identifier *)

Abbreviation dict := (gmap obs_id (list string)).

Definition note (i_obs_all : obs_id) : string :=
  "Note: Multiple filters in observation " +:+ str_id i_obs_all.

(** Body of the loop of lines 118-125. *)
Definition group_dichroic (sw_filters_all lw_filters_all : list string)
    (observation_ids : list obs_id) (i_obs_all : obs_id)
    (d : dict * dict) : M (dict * dict) :=
  let current_obs_indices :=
    (λ i, bool_decide (i = i_obs_all)) <$> observation_ids in
  chk ← lift (np_getmask sw_filters_all current_obs_indices);
  (if bool_decide (1 < length (remove_dups chk))
   then print (note i_obs_all) else mret tt);;
  sw ← lift (np_getmask sw_filters_all current_obs_indices);
  lw ← lift (np_getmask lw_filters_all current_obs_indices);
  mret (<[i_obs_all := sw]> d.1, <[i_obs_all := lw]> d.2).

(** Body of the loop of lines 153-159. *)
Definition group_single (filters_all : list string)
    (observation_ids : list obs_id) (i_obs_all : obs_id)
    (filters : dict) : M dict :=
  let current_obs_indices :=
    (λ i, bool_decide (i = i_obs_all)) <$> observation_ids in
  chk ← lift (np_getmask filters_all current_obs_indices);
  (if bool_decide (1 < length (remove_dups chk))
   then print (note i_obs_all) else mret tt);;
  f ← lift (np_getmask filters_all current_obs_indices);
  mret (<[i_obs_all := f]> filters).

(** The loops of lines 118-125 and 153-159 over [set(observation_ids)]. *)
Definition aggregate_dichroic (set_order : list obs_id → list obs_id)
    (xml_table : table) : M (dict * dict) :=
  let sw_filters_all := ShortFilter xml_table in
  let lw_filters_all := LongFilter xml_table in
  let observation_ids := ObservationID xml_table in
  foldM (group_dichroic sw_filters_all lw_filters_all observation_ids)
    (set_order observation_ids) (∅, ∅).

Definition aggregate_single (set_order : list obs_id → list obs_id)
    (xml_table : table) : M dict :=
  let filters_all := PupilWheel xml_table in
  let observation_ids := ObservationID xml_table in
  foldM (group_single filters_all observation_ids)
    (set_order observation_ids) ∅.

(** ** The local variables that one family's branch binds (lines 95-169) *)

Inductive schema_vars :=
| DichroicVars (sw_filters lw_filters : dict) (all_param_lengths : list nat)
| SingleVars (filters : dict) (catalog_files : list string)
    (all_param_lengths : list nat)
| NoVars.

(** Line 164: [catalog_files*len(observations)] when one catalog is given. *)
Definition broadcast (catalog_files : list string) (n : nat) : list string :=
  if bool_decide (length catalog_files = 1)
  then mjoin (replicate n catalog_files)
  else catalog_files.

Definition setup (set_order : list obs_id → list obs_id)
    (instrument : string) (xml_table : table) (sel : selection)
    (catalog_files : list string) (ps_cat_sw ps_cat_lw : option (list string))
    : M schema_vars :=
  if bool_decide (instrument ∈ ["NIRCAM"; "WFSC"]) then
    d ← aggregate_dichroic set_order xml_table;
    n_sw ← lift (len_opt ps_cat_sw);
    n_lw ← lift (len_opt ps_cat_lw);
    mret (DichroicVars d.1 d.2
            [n_sw; n_lw; size d.1; size d.2; length (observations sel);
             length (i_observations sel); length (obs_names sel)])
  else if bool_decide (instrument ∈ ["NIRISS"]) then
    filters ← aggregate_single set_order xml_table;
    let catalog_files := broadcast catalog_files (length (observations sel)) in
    mret (SingleVars filters catalog_files
            [length catalog_files; size filters; length (observations sel);
             length (i_observations sel); length (obs_names sel)])
  else mret NoVars.

(** ** Validation (lines 171-174) *)

(** The message of the exception of lines 173-174. *)
Definition cardinality_message (yaml_file : string) : string :=
  "Not all provided parameters have compatible dimensions. Will not write "
    +:+ yaml_file.

Definition validate (vars : schema_vars) (yaml_file : string) : M unit :=
  match vars with
  | NoVars => raise (UnboundLocalError "all_param_lengths")
  | DichroicVars _ _ all_param_lengths
  | SingleVars _ _ all_param_lengths =>
      if bool_decide (1 < length (remove_dups all_param_lengths)) then
        print (str_list all_param_lengths);;
        raise (ValueError (cardinality_message yaml_file))
      else mret tt
  end.

(** ** Rendering (lines 176-249) *)

Definition write_header : list string :=
  [ "# Observation list created by write_observationlist.py  in" +:+ LF;
    "# mirage/yaml. Note: all values except filters and" +:+ LF;
    "# observation names are default." +:+ LF +:+ LF ].

(** The four lines that open an observation (lines 183-188, 225-230). *)
Definition obs_header (obs_number : nat) (name : string) : list string :=
  [ "Observation" +:+ pretty obs_number +:+ ":" +:+ LF;
    "  Name: '" +:+ name +:+ "'" +:+ LF;
    "  Date: " +:+ date +:+ LF;
    "  PAV3: " +:+ PAV3 +:+ LF ].

(** Lines 192-220. *)
Definition filter_config (i_filt : nat) (sw_filt lw_filt cat_sw cat_lw : string)
    : list string :=
  [ "  FilterConfig" +:+ pretty (i_filt + 1) +:+ ":" +:+ LF;
    "    SW:" +:+ LF;
    "      Filter: " +:+ sw_filt +:+ LF;
    "      PointSourceCatalog: " +:+ cat_sw +:+ LF;
    "      GalaxyCatalog: " +:+ GalaxyCatalog +:+ LF;
    "      ExtendedCatalog: " +:+ ExtendedCatalog +:+ LF;
    "      ExtendedScale: " +:+ ExtendedScale +:+ LF;
    "      ExtendedCenter: " +:+ ExtendedCenter +:+ LF;
    "      MovingTargetList: " +:+ MovingTargetList +:+ LF;
    "      MovingTargetSersic: " +:+ MovingTargetSersic +:+ LF;
    "      MovingTargetExtended: " +:+ MovingTargetExtended +:+ LF;
    "      MovingTargetConvolveExtended: "
      +:+ MovingTargetConvolveExtended +:+ LF;
    "      MovingTargetToTrack: " +:+ MovingTargetToTrack +:+ LF;
    "      BackgroundRate: " +:+ BackgroundRate_sw +:+ LF;
    "    LW:" +:+ LF;
    "      Filter: " +:+ lw_filt +:+ LF;
    "      PointSourceCatalog: " +:+ cat_lw +:+ LF;
    "      GalaxyCatalog: " +:+ GalaxyCatalog +:+ LF;
    "      ExtendedCatalog: " +:+ ExtendedCatalog +:+ LF;
    "      ExtendedScale: " +:+ ExtendedScale +:+ LF;
    "      ExtendedCenter: " +:+ ExtendedCenter +:+ LF;
    "      MovingTargetList: " +:+ MovingTargetList +:+ LF;
    "      MovingTargetSersic: " +:+ MovingTargetSersic +:+ LF;
    "      MovingTargetExtended: " +:+ MovingTargetExtended +:+ LF;
    "      MovingTargetConvolveExtended: "
      +:+ MovingTargetConvolveExtended +:+ LF;
    "      MovingTargetToTrack: " +:+ MovingTargetToTrack +:+ LF;
    "      BackgroundRate: " +:+ BackgroundRate_lw +:+ LF +:+ LF ].

(** Lines 234-249. *)
Definition filter_block (filt cat : string) : list string :=
  [ "  Filter: " +:+ filt +:+ LF;
    "  PointSourceCatalog: " +:+ cat +:+ LF;
    "  GalaxyCatalog: " +:+ GalaxyCatalog +:+ LF;
    "  ExtendedCatalog: " +:+ ExtendedCatalog +:+ LF;
    "  ExtendedScale: " +:+ ExtendedScale +:+ LF;
    "  ExtendedCenter: " +:+ ExtendedCenter +:+ LF;
    "  MovingTargetList: " +:+ MovingTargetList +:+ LF;
    "  MovingTargetSersic: " +:+ MovingTargetSersic +:+ LF;
    "  MovingTargetExtended: " +:+ MovingTargetExtended +:+ LF;
    "  MovingTargetConvolveExtended: " +:+ MovingTargetConvolveExtended +:+ LF;
    "  MovingTargetToTrack: " +:+ MovingTargetToTrack +:+ LF;
    "  BackgroundRate: " +:+ BackgroundRate +:+ LF ].

(** Body of the inner loop of lines 190-220. *)
Definition render_config (ps_cat_sw ps_cat_lw : option (list string))
    (i_obs : nat) (cfg : nat * (string * string)) (write : list string)
    : result (list string) :=
  let '(i_filt, (sw_filt, lw_filt)) := cfg in
  cat_sw ← getitem_opt ps_cat_sw i_obs;
  cat_lw ← getitem_opt ps_cat_lw i_obs;
  mret (write ++ filter_config i_filt sw_filt lw_filt cat_sw cat_lw).

(** Body of the loop of lines 181-220. *)
Definition render_dichroic (sel : selection) (sw_filters lw_filters : dict)
    (ps_cat_sw ps_cat_lw : option (list string))
    (i_obs : nat) (write : list string) : result (list string) :=
  pos ← getitem (i_observations sel) i_obs;
  let obs_number := pos + 1 in
  name ← getitem (obs_names sel) i_obs;
  let write := (write ++ obs_header obs_number name) in
  sw ← getkey sw_filters (IdInt (Z.of_nat obs_number));
  lw ← getkey lw_filters (IdInt (Z.of_nat obs_number));
  foldM (render_config ps_cat_sw ps_cat_lw i_obs) (enumerate (zip sw lw)) write.

(** Body of the inner loop of lines 233-249. *)
Definition render_filter (catalog_files : list string) (i_obs : nat)
    (cfg : nat * string) (write : list string) : result (list string) :=
  let '(i_filt, filt) := cfg in
  cat ← getitem catalog_files i_obs;
  mret (write ++ filter_block filt cat).

(** Body of the loop of lines 223-249. *)
Definition render_single (sel : selection) (filters : dict)
    (catalog_files : list string)
    (i_obs : nat) (write : list string) : result (list string) :=
  pos ← getitem (i_observations sel) i_obs;
  let obs_number := pos + 1 in
  name ← getitem (obs_names sel) i_obs;
  let write := (write ++ obs_header obs_number name) in
  f ← getkey filters (IdInt (Z.of_nat i_obs));
  foldM (render_filter catalog_files i_obs) (enumerate f) write.

Definition render (instrument : string) (sel : selection) (vars : schema_vars)
    (ps_cat_sw ps_cat_lw : option (list string)) : result (list string) :=
  let num_obs := length (observations sel) in
  let write := write_header in
  if bool_decide (instrument ∈ ["NIRCAM"; "WFSC"]) then
    match vars with
    | DichroicVars sw_filters lw_filters _ =>
        foldM (render_dichroic sel sw_filters lw_filters ps_cat_sw ps_cat_lw)
          (seq 0 num_obs) write
    | _ => if bool_decide (num_obs = 0) then mret write
           else Raise (UnboundLocalError "date")
    end
  else if bool_decide (instrument ∈ ["NIRISS"; "FGS"]) then
    match vars with
    | SingleVars filters catalog_files _ =>
        foldM (render_single sel filters catalog_files) (seq 0 num_obs) write
    | _ => if bool_decide (num_obs = 0) then mret write
           else Raise (UnboundLocalError "date")
    end
  else mret write.

(** ** The summary printed at lines 85-87 *)

(** The keys of the table and the lengths of their columns, in the order of
    the record. *)
Definition columns (t : table) : list (string * nat) :=
  [ ("Instrument", length (Instrument t));
    ("ShortFilter", length (ShortFilter t));
    ("LongFilter", length (LongFilter t));
    ("PupilWheel", length (PupilWheel t));
    ("TileNumber", length (TileNumber t));
    ("ObservationID", length (ObservationID t)) ].

Definition summary_line (col : string * nat) : string :=
  ljust 25 col.1 +:+ ": number of elements is " +:+ rjust 5 (pretty col.2).

Definition print_summary (xml_file : string) (t : table) : M unit :=
  print ("Summary of dictionary extracted from " +:+ xml_file);;
  foldM (λ col _, print (summary_line col)) (columns t) tt.

(** ** [write_yaml] *)

Definition catalog_list (catalog_files : catalog_arg) : list string :=
  match catalog_files with
  | CatStr s => [s]
  | CatList l => l
  end.

(** Lines 43-169: everything up to the validation. [obs_results] and
    [xml_table] are what [lxml] and [read_xml] return for [xml_file];
    [set_order] is the order in which a Python [set] built from a list is
    iterated. The result is [used_instruments[0]] and the variables bound
    by the branch taken. *)
Definition prepare (set_order : list obs_id → list obs_id)
    (obs_results : list node) (xml_table : table)
    (xml_file : string) (catalog_files : catalog_arg)
    (ps_cat_sw ps_cat_lw : option (list string)) : M (string * schema_vars) :=
  let catalog_files := catalog_list catalog_files in
  let sel := select obs_results in
  let used_instruments := np_unique (Instrument xml_table) in
  print_summary xml_file xml_table;;
  if bool_decide (1 < length used_instruments) then raise NotImplementedError
  else
    instrument ← lift (getitem used_instruments 0);
    vars ← setup set_order instrument xml_table sel catalog_files
             ps_cat_sw ps_cat_lw;
    mret (instrument, vars).

(** Lines 171-255: validation, rendering, writing. *)
Definition finish (obs_results : list node) (yaml_file : string)
    (ps_cat_sw ps_cat_lw : option (list string))
    (iv : string * schema_vars) : M unit :=
  let sel := select obs_results in
  let num_obs := length (observations sel) in
  validate iv.2 yaml_file;;
  write ← lift (render iv.1 sel iv.2 ps_cat_sw ps_cat_lw);
  write_file yaml_file write;;
  print (LF +:+ "Successfully wrote " +:+ pretty num_obs
           +:+ " observations to " +:+ yaml_file).

Definition write_yaml (set_order : list obs_id → list obs_id)
    (obs_results : list node) (xml_table : table)
    (xml_file yaml_file : string) (catalog_files : catalog_arg)
    (ps_cat_sw ps_cat_lw : option (list string)) : M unit :=
  iv ← prepare set_order obs_results xml_table xml_file catalog_files
         ps_cat_sw ps_cat_lw;
  finish obs_results yaml_file ps_cat_sw ps_cat_lw iv.

(** ** Notions of the specification *)

(** A Python set built from a list iterates over every distinct element
    once, in some order. *)
Definition set_order_ok (set_order : list obs_id → list obs_id) : Prop :=
  ∀ l, NoDup (set_order l) ∧ ∀ x, x ∈ set_order l ↔ x ∈ l.

(** The label has a parenthetical segment: a space followed by ["("], closed
    by a [")"] further on. *)
Fixpoint has_parenthetical (s : string) : bool :=
  match s with
  | EmptyString => false
  | String _ s' =>
      (String.prefix " (" s && contains ")" s') || has_parenthetical s'
  end.

(** The label cut where its first parenthetical segment starts. *)
Fixpoint cut_parenthetical (s : string) : string :=
  match s with
  | EmptyString => EmptyString
  | String c s' =>
      if String.prefix " (" s && contains ")" s' then EmptyString
      else String c (cut_parenthetical s')
  end.

(** The name as section 4.1 of the specification words it. *)
Definition name_by_spec (label : string) : string :=
  if has_parenthetical label then cut_parenthetical label else label.

(** The entries of column [col] on the rows whose identifier is [k], in row
    order. *)
Definition rows_of {A} (k : obs_id) (ids : list obs_id) (col : list A) : list A :=
  (filter (λ r, r.1 = k) (zip ids col)).*2.

(** The values of a group are not all the same. *)
Definition non_uniform (l : list string) : Prop :=
  ∃ a b, a ∈ l ∧ b ∈ l ∧ a ≠ b.

(** The positions, in the unfiltered list, of the observations of a
    supported instrument. *)
Definition supported_positions (obs_results : list node) : list nat :=
  (filter (λ io, Instrument_text io.2 ∈ supported) (enumerate obs_results)).*1.

Definition all_param_lengths (vars : schema_vars) : option (list nat) :=
  match vars with
  | DichroicVars _ _ l | SingleVars _ _ l => Some l
  | NoVars => None
  end.

(** The keys with which the rendering loop looks up the filter groups:
    [obs_number] at line 190, [i_obs] at line 233. *)
Definition render_keys (instrument : string) (sel : selection) : list obs_id :=
  if bool_decide (instrument ∈ ["NIRCAM"; "WFSC"])
  then (λ pos, IdInt (Z.of_nat (pos + 1))) <$> i_observations sel
  else (λ i, IdInt (Z.of_nat i)) <$> seq 0 (length (observations sel)).

(** [c] returns [r] and prints the lines [out], whatever the state it starts
    from, and leaves the file system alone. *)
Definition logs {A} (c : M A) (r : result A) (out : list string) : Prop :=
  ∀ w, c w = (r, {| stdout := stdout w ++ out; fs := fs w |}).

(** The dictionary after the grouping loop ran over the keys [ks], where
    [g k] is the group of [k]; and the notices the loop printed. *)
Definition insert_groups (g : obs_id → list string) (ks : list obs_id)
    (d : dict) : dict :=
  foldl (λ m k, <[k := g k]> m) d ks.

Definition notices (g : obs_id → list string) (ks : list obs_id) : list string :=
  note <$> filter (λ k, 1 < length (remove_dups (g k))) ks.

(** What lines 85-87 print. *)
Definition summary_lines (xml_file : string) (t : table) : list string :=
  ("Summary of dictionary extracted from " +:+ xml_file)
    :: (summary_line <$> columns t).

(** The dictionary that the grouping loop builds from column [col] when the
    identifier set is iterated in the order [so]. *)
Definition groups (so : list obs_id → list obs_id) (t : table)
    (col : list string) : dict :=
  insert_groups (λ k, rows_of k (ObservationID t) col) (so (ObservationID t)) ∅.

(** What [setup] has bound when it returns [vars]. *)
Definition setup_shape (so : list obs_id → list obs_id) (x : string)
    (t : table) (sel : selection) (cats : list string)
    (sw lw : option (list string)) (vars : schema_vars) : Prop :=
  (x ∈ ["NIRCAM"; "WFSC"]
   ∧ (∃ cs cl, sw = Some cs ∧ lw = Some cl
        ∧ vars = DichroicVars (groups so t (ShortFilter t))
                   (groups so t (LongFilter t))
                   [length cs; length cl; size (groups so t (ShortFilter t));
                    size (groups so t (LongFilter t));
                    length (observations sel); length (i_observations sel);
                    length (obs_names sel)])
   ∧ ((length (ShortFilter t) = length (ObservationID t)
       ∧ length (LongFilter t) = length (ObservationID t))
      ∨ so (ObservationID t) = []))
  ∨ ((x ∉ ["NIRCAM"; "WFSC"]) ∧ x ∈ ["NIRISS"]
     ∧ vars = SingleVars (groups so t (PupilWheel t))
                (broadcast cats (length (observations sel)))
                [length (broadcast cats (length (observations sel)));
                 size (groups so t (PupilWheel t));
                 length (observations sel); length (i_observations sel);
                 length (obs_names sel)]
     ∧ (length (PupilWheel t) = length (ObservationID t)
        ∨ so (ObservationID t) = []))
  ∨ ((x ∉ ["NIRCAM"; "WFSC"]) ∧ (x ∉ ["NIRISS"]) ∧ vars = NoVars).

(** The lines that follow the header of an observation: one flat block per
    filter in the single-channel family, one numbered configuration per
    (short, long) pair in the dichroic family. *)
Definition single_body (fl : list string) (cat : string) : list string :=
  concat ((λ f, filter_block f cat) <$> fl).

Definition dichroic_body (sw lw : list string) (cat_sw cat_lw : string)
    : list string :=
  concat ((λ c, filter_config c.1 c.2.1 c.2.2 cat_sw cat_lw)
            <$> enumerate (zip sw lw)).

(** [blk] is the block of the [i]-th selected observation. *)
Definition single_block (sel : selection) (filters : dict)
    (catalog_files : list string) (i : nat) (blk : list string) : Prop :=
  ∃ pos name fl cat,
    i_observations sel !! i = Some pos ∧ obs_names sel !! i = Some name ∧
    filters !! IdInt (Z.of_nat i) = Some fl ∧
    (fl = [] ∨ catalog_files !! i = Some cat) ∧
    blk = obs_header (pos + 1) name ++ single_body fl cat.

Definition dichroic_block (sel : selection) (sw_filters lw_filters : dict)
    (ps_cat_sw ps_cat_lw : option (list string)) (i : nat)
    (blk : list string) : Prop :=
  ∃ pos name sw lw cat_sw cat_lw,
    i_observations sel !! i = Some pos ∧ obs_names sel !! i = Some name ∧
    sw_filters !! IdInt (Z.of_nat (pos + 1)) = Some sw ∧
    lw_filters !! IdInt (Z.of_nat (pos + 1)) = Some lw ∧
    (zip sw lw = [] ∨ (getitem_opt ps_cat_sw i = Ok cat_sw
                       ∧ getitem_opt ps_cat_lw i = Ok cat_lw)) ∧
    blk = obs_header (pos + 1) name ++ dichroic_body sw lw cat_sw cat_lw.

(** [body] is what follows the header in the block of the [i]-th selected
    observation, which sits at position [pos] of the unfiltered list: in the
    dichroic family the configurations of the exposure rows of identifier
    [pos + 1] with the [i]-th catalog of each channel, in the single-channel
    family the entries of the exposure rows of identifier [i] with the
    [i]-th catalog. *)
Definition block_body (x : string) (t : table) (catalog_files : list string)
    (ps_cat_sw ps_cat_lw : option (list string)) (i pos : nat)
    (body : list string) : Prop :=
  (x ∈ ["NIRCAM"; "WFSC"]
   ∧ ∃ cs cl cat_sw cat_lw,
       ps_cat_sw = Some cs ∧ ps_cat_lw = Some cl
       ∧ cs !! i = Some cat_sw ∧ cl !! i = Some cat_lw
       ∧ body = dichroic_body
                  (rows_of (IdInt (Z.of_nat (pos + 1))) (ObservationID t)
                     (ShortFilter t))
                  (rows_of (IdInt (Z.of_nat (pos + 1))) (ObservationID t)
                     (LongFilter t))
                  cat_sw cat_lw)
  ∨ (x = "NIRISS"
     ∧ ∃ cat,
         catalog_files !! i = Some cat
         ∧ body = single_body
                    (rows_of (IdInt (Z.of_nat i)) (ObservationID t)
                       (PupilWheel t))
                    cat).

(** The lines of a block that name a point source catalog at the depth of
    the single-channel entries. *)
Definition catalog_lines (blk : list string) : list string :=
  List.filter (String.prefix "  PointSourceCatalog: ") blk.

(** ** Sample proposals *)

Definition w0 : world := World [] ∅.

(** Three NIRISS observations around one of an instrument that is not
    handled; the reader numbers the identifiers from 0. *)
Definition ex_niriss_obs : list node :=
  [ Node "NIRISS" "OTE-01 (Commissioning)"; Node "MIRI" "Flat";
    Node "NIRISS" "OTE-02"; Node "NIRISS" "OTE-03 (Repeat)" ].

Definition ex_niriss_table : table :=
  {| Instrument := ["NIRISS"; "NIRISS"; "NIRISS"; "NIRISS"];
     ShortFilter := []; LongFilter := [];
     PupilWheel := ["CLEARP"; "F480M"; "F430M"; "F380M"];
     TileNumber := [1; 1; 2; 1]%Z;
     ObservationID := [IdInt 0; IdInt 1; IdInt 1; IdInt 2] |}.

(** The same observations, identifiers numbered from 1. *)
Definition ex_niriss_table_from1 : table :=
  {| Instrument := ["NIRISS"; "NIRISS"; "NIRISS"; "NIRISS"];
     ShortFilter := []; LongFilter := [];
     PupilWheel := ["CLEARP"; "F480M"; "F430M"; "F380M"];
     TileNumber := [1; 1; 2; 1]%Z;
     ObservationID := [IdInt 1; IdInt 2; IdInt 2; IdInt 3] |}.

(** The same observations with exposures for two identifiers only. *)
Definition ex_niriss_table_two : table :=
  {| Instrument := ["NIRISS"; "NIRISS"; "NIRISS"; "NIRISS"];
     ShortFilter := []; LongFilter := [];
     PupilWheel := ["CLEARP"; "F480M"; "F430M"; "F380M"];
     TileNumber := [1; 1; 2; 1]%Z;
     ObservationID := [IdInt 0; IdInt 0; IdInt 1; IdInt 1] |}.

Definition ex_fgs_obs : list node := [ Node "FGS" "Guider check" ].

Definition ex_fgs_table : table :=
  {| Instrument := ["FGS"]; ShortFilter := []; LongFilter := [];
     PupilWheel := ["NA"]; TileNumber := [1]%Z; ObservationID := [IdInt 0] |}.

(** Two NIRCam/WFSC observations around one that is not handled; the first
    has two exposures that share the short filter and differ in the long
    one. *)
Definition ex_nircam_obs : list node :=
  [ Node "NIRCAM" "Deep field (north)"; Node "MIRI" "Flat";
    Node "WFSC" "Coarse phasing" ].

Definition ex_nircam_table : table :=
  {| Instrument := ["NIRCAM"; "NIRCAM"; "NIRCAM"];
     ShortFilter := ["F200W"; "F200W"; "F212N"];
     LongFilter := ["F356W"; "F444W"; "F480M"];
     PupilWheel := [];
     TileNumber := [1; 2; 1]%Z;
     ObservationID := [IdInt 1; IdInt 1; IdInt 3] |}.

Definition ex_mixed_table : table :=
  {| Instrument := ["NIRCAM"; "NIRISS"];
     ShortFilter := ["F200W"; "NA"]; LongFilter := ["F356W"; "NA"];
     PupilWheel := ["NA"; "CLEARP"];
     TileNumber := [1; 1]%Z;
     ObservationID := [IdInt 1; IdInt 2] |}.

(** Another iteration order, and a state in which the output file already
    exists. *)
Definition reversed_order (l : list obs_id) : list obs_id :=
  reverse (remove_dups l).

Definition w_used : world :=
  {| stdout := ["earlier output"];
     fs := {[ "out.yaml" := "stale"; "notes.txt" := "kept" ]} |}.

(** The line printed at line 255. *)
Definition success_message (num_obs : nat) (yaml_file : string) : string :=
  LF +:+ "Successfully wrote " +:+ pretty num_obs
    +:+ " observations to " +:+ yaml_file.

(** A proposal whose table has no exposure, and one for an instrument that
    is selected at line 61 but has no branch at lines 95-169. *)
Definition ex_empty_table : table :=
  {| Instrument := []; ShortFilter := []; LongFilter := [];
     PupilWheel := []; TileNumber := []; ObservationID := [] |}.

Definition ex_miri_table : table :=
  {| Instrument := ["MIRI"; "MIRI"]; ShortFilter := []; LongFilter := [];
     PupilWheel := []; TileNumber := [1; 1]%Z;
     ObservationID := [IdInt 1; IdInt 2] |}.

(** The NIRCam/WFSC proposal with identifiers that match the observation
    numbers 1 and 3 and two exposures for each. *)
Definition ex_nircam_table4 : table :=
  {| Instrument := ["NIRCAM"; "NIRCAM"; "NIRCAM"; "NIRCAM"];
     ShortFilter := ["F200W"; "F212N"; "F200W"; "F212N"];
     LongFilter := ["F356W"; "F356W"; "F444W"; "F480M"];
     PupilWheel := [];
     TileNumber := [1; 1; 2; 2]%Z;
     ObservationID := [IdInt 1; IdInt 3; IdInt 1; IdInt 3] |}.

(** * Properties *)

(** ** Name derivation *)

Lemma append_nil (s : string) : EmptyString +:+ s = s.
Proof. reflexivity. Qed.

Lemma append_cons c (s t : string) : String c s +:+ t = String c (s +:+ t).
Proof. reflexivity. Qed.

Lemma prefix_nil (s : string) : String.prefix EmptyString s = true.
Proof. by destruct s. Qed.

Lemma prefix_app_same (sub s : string) : String.prefix sub (sub +:+ s) = true.
Proof.
  induction sub as [|c sub IH]; [by destruct s|].
  rewrite append_cons. cbn [String.prefix]. by destruct (ascii_dec c c).
Qed.

Lemma contains_here (sub s : string) :
  String.prefix sub s = true → contains sub s = true.
Proof. intros H. destruct s; cbn [contains]; by rewrite H. Qed.

Lemma contains_app_r (sub p s : string) :
  contains sub s = true → contains sub (p +:+ s) = true.
Proof.
  intros H. induction p as [|c p IH]; [done|].
  rewrite append_cons. cbn [contains]. rewrite IH. apply orb_true_r.
Qed.

Lemma contains_cons_false (sub : string) c s :
  contains sub (String c s) = false →
  String.prefix sub (String c s) = false ∧ contains sub s = false.
Proof. cbn [contains]. intros H. by apply orb_false_elim in H. Qed.

(** No delimiter starts inside [pre], and one starts right after it. *)
Lemma re_split_head_app (pre rest : string) :
  contains ")" pre = false → contains " (" pre = false →
  String.prefix " (" rest = true ∨ String.prefix ")" rest = true →
  re_split_head (pre +:+ rest) = pre.
Proof.
  intros Hc Ho Hrest. induction pre as [|c pre IH].
  - destruct rest as [|r rest]; [by destruct Hrest|].
    rewrite append_nil. cbn [re_split_head].
    destruct Hrest as [-> | ->]; [done|]. by rewrite orb_true_r.
  - apply contains_cons_false in Hc as [Hc1 Hc2].
    apply contains_cons_false in Ho as [Ho1 Ho2].
    rewrite append_cons. cbn [re_split_head]. rewrite (IH Hc2 Ho2).
    replace (String.prefix ")" (String c (pre +:+ rest))) with false; last first.
    { cbn [String.prefix] in *. rewrite prefix_nil in Hc1.
      by destruct (ascii_dec ")" c). }
    replace (String.prefix " (" (String c (pre +:+ rest))) with false; [done|].
    cbn [String.prefix] in *. destruct (ascii_dec " " c); [|done].
    destruct pre as [|p pre];
      rewrite ?append_nil, ?append_cons; cbn [String.prefix] in *.
    + destruct rest as [|r rest]; cbn [String.prefix]; [done|].
      destruct (ascii_dec "(" r); [|done].
      subst r. destruct Hrest as [Hr | Hr]; cbn [String.prefix] in Hr.
      * by destruct (ascii_dec " " "(").
      * by destruct (ascii_dec ")" "(").
    + rewrite ?prefix_nil in *. by destruct (ascii_dec "(" p).
Qed.


(** C7, as stated, fails: a label with a [")"] before its first [" ("] has
    no parenthetical segment, so the name should be the label itself, but
    the name is cut at the [")"]. *)
Lemma obs_name_stray_paren :
  has_parenthetical "Run 2) flat (dark" = false ∧
  name_by_spec "Run 2) flat (dark" = "Run 2) flat (dark" ∧
  obs_name "Run 2) flat (dark" = "Run 2".
Proof. by vm_compute. Qed.

(** C7, amended: when the label holds both [" ("] and [")"], the name is the
    label cut at the first place where either of them starts: at the start
    of the parenthetical segment when no [")"] comes before the first
    [" ("], at the first [")"] otherwise. A label that lacks [" ("] or lacks
    [")"] is kept unchanged. *)
Theorem obs_name_cut (label : string) :
  (∀ pre post, label = pre +:+ " (" +:+ post →
     contains ")" pre = false → contains " (" pre = false →
     contains ")" post = true → obs_name label = pre) ∧
  (∀ pre post, label = pre +:+ ")" +:+ post →
     contains ")" pre = false → contains " (" pre = false →
     contains " (" post = true → obs_name label = pre) ∧
  (contains " (" label && contains ")" label = false → obs_name label = label).
Proof.
  split_and!.
  - intros pre post -> Hc Ho Hpost. unfold obs_name.
    rewrite (contains_app_r " (" pre)
      by apply contains_here, prefix_app_same.
    rewrite (contains_app_r ")" pre) by by apply (contains_app_r ")" " (").
    cbn [andb]. apply re_split_head_app; [done..|]. left. apply prefix_app_same.
  - intros pre post -> Hc Ho Hpost. unfold obs_name.
    rewrite (contains_app_r " (" pre) by by apply (contains_app_r " (" ")").
    rewrite (contains_app_r ")" pre)
      by apply contains_here, prefix_app_same.
    cbn [andb]. apply re_split_head_app; [done..|]. right. apply prefix_app_same.
  - intros H. unfold obs_name. by rewrite H.
Qed.

Lemma obs_name_cut_witness :
  obs_name "OTE-01 (Commissioning)" = "OTE-01" ∧
  obs_name "OTE-01" = "OTE-01".
Proof.
  split.
  - apply (proj1 (obs_name_cut "OTE-01 (Commissioning)") "OTE-01" "Commissioning)");
      reflexivity.
  - apply (proj2 (proj2 (obs_name_cut "OTE-01"))). reflexivity.
Defined.

(** ** Running the monad *)

Lemma bind_run {A B} (c : M A) (f : A → M B) (w : world) :
  (c ≫= f) w =
  match c w with
  | (Ok a, w') => f a w'
  | (Raise e, w') => (Raise e, w')
  end.
Proof. reflexivity. Qed.

(** ** [np.unique] *)

Lemma string_compare_refl (s : string) : String.compare s s = Eq.
Proof.
  pose proof (String.compare_antisym s s) as H.
  destruct (String.compare s s); done.
Qed.

Lemma insert_unique_length (x : string) (l : list string) :
  (length l ≤ length (insert_unique x l))%nat.
Proof.
  induction l as [|y l IH]; simpl; [lia|].
  destruct (String.compare x y); simpl; lia.
Qed.

Lemma elem_of_insert_unique (x z : string) (l : list string) :
  z ∈ insert_unique x l ↔ z = x ∨ z ∈ l.
Proof.
  induction l as [|y l IH]; simpl.
  { rewrite list_elem_of_singleton, elem_of_nil. tauto. }
  destruct (String.compare x y) eqn:E.
  - apply String.compare_eq_iff in E as ->. rewrite elem_of_cons. tauto.
  - rewrite elem_of_cons. tauto.
  - rewrite !elem_of_cons, IH. tauto.
Qed.

Lemma elem_of_np_unique (z : string) (l : list string) :
  z ∈ np_unique l ↔ z ∈ l.
Proof.
  induction l as [|y l IH]; [done|].
  unfold np_unique in *. cbn [foldr]. rewrite elem_of_insert_unique, IH.
  rewrite elem_of_cons. tauto.
Qed.

(** Two different values in the column give more than one entry. *)
Lemma np_unique_two (a b : string) (l : list string) :
  a ∈ l → b ∈ l → a ≠ b → 1 < length (np_unique l).
Proof.
  induction l as [|x l IH]; intros Ha Hb Hab; [by apply elem_of_nil in Ha|].
  unfold np_unique in *. cbn [foldr]. fold (np_unique l) in *.
  destruct (decide (1 < length (np_unique l))) as [Hlen|Hlen].
  { pose proof (insert_unique_length x (np_unique l)). lia. }
  destruct (np_unique l) as [|y [|y' u]] eqn:Eu; [| |simpl in Hlen; lia].
  - assert (∀ z, z ∉ l) as Hnil.
    { intros z Hz. apply elem_of_np_unique in Hz. rewrite Eu in Hz.
      by apply elem_of_nil in Hz. }
    apply elem_of_cons in Ha as [->|Ha]; [|by apply Hnil in Ha].
    apply elem_of_cons in Hb as [->|Hb]; [done|by apply Hnil in Hb].
  - assert (∀ z, z ∈ l → z = y) as Hy.
    { intros z Hz. apply elem_of_np_unique in Hz. rewrite Eu in Hz.
      by apply list_elem_of_singleton in Hz. }
    assert (x ≠ y) as Hxy.
    { intros ->. apply elem_of_cons in Ha as [->|Ha], Hb as [->|Hb];
        try done; try (by apply Hy in Hb); try (by apply Hy in Ha).
      apply Hy in Ha, Hb. congruence. }
    simpl. destruct (String.compare x y) eqn:E; simpl; try lia.
    by apply String.compare_eq_iff in E.
Qed.

(** A column that holds one value only gives that value. *)
Lemma np_unique_single (x : string) (l : list string) :
  l ≠ [] → (∀ y, y ∈ l → y = x) → np_unique l = [x].
Proof.
  induction l as [|y l IH]; intros Hne Hall; [done|].
  assert (y = x) as -> by (apply Hall; left).
  unfold np_unique in *. cbn [foldr]. fold (np_unique l) in *.
  destruct l as [|z l]; [done|].
  rewrite IH; [|done|intros y Hy; apply Hall; by right].
  simpl. by rewrite string_compare_refl.
Qed.

Lemma np_unique_single_inv (x : string) (l : list string) :
  np_unique l = [x] → l ≠ [] ∧ ∀ y, y ∈ l → y = x.
Proof.
  intros H. split.
  - intros ->. done.
  - intros y Hy. apply elem_of_np_unique in Hy. rewrite H in Hy.
    by apply list_elem_of_singleton in Hy.
Qed.

Lemma world_eta (w : world) : {| stdout := stdout w; fs := fs w |} = w.
Proof. by destruct w. Qed.

Lemma logs_lift {A} (r : result A) : logs (lift r) r [].
Proof. intros w. unfold lift. by rewrite app_nil_r, world_eta. Qed.

Lemma logs_ret {A} (a : A) : logs (mret a) (Ok a) [].
Proof. apply (logs_lift (Ok a)). Qed.

Lemma logs_print (s : string) : logs (print s) (Ok tt) [s].
Proof. by intros w. Qed.

Lemma logs_bind {A B} (c : M A) (f : A → M B) a r o1 o2 :
  logs c (Ok a) o1 → logs (f a) r o2 → logs (c ≫= f) r (o1 ++ o2).
Proof.
  intros Hc Hf w. rewrite bind_run, Hc, Hf. simpl. by rewrite app_assoc.
Qed.

Lemma logs_bind_lift {A B} (f : A → M B) a r o :
  logs (f a) r o → logs (lift (Ok a) ≫= f) r o.
Proof. apply (logs_bind _ _ _ _ []), logs_lift. Qed.

Lemma logs_bind_quiet {A B} (c : M A) (f : A → M B) a r o :
  logs c (Ok a) o → logs (f a) r [] → logs (c ≫= f) r o.
Proof.
  intros Hc Hf. rewrite <-(app_nil_r o). by eapply logs_bind.
Qed.

Lemma logs_bind_raise {A B} (c : M A) (f : A → M B) e o :
  logs c (Raise e) o → logs (c ≫= f) (Raise e) o.
Proof. intros Hc w. by rewrite bind_run, Hc. Qed.

Lemma logs_det {A} (c : M A) r r' o o' :
  logs c r o → logs c r' o' → r = r' ∧ o = o'.
Proof.
  intros H H'. specialize (H (World [] ∅)). specialize (H' (World [] ∅)).
  rewrite H in H'. simpl in H'. by simplify_eq.
Qed.

(** ** Grouping *)

Lemma mask_select_rows_of {A} (k : obs_id) (ids : list obs_id) (col : list A) :
  mask_select col ((λ i, bool_decide (i = k)) <$> ids) = rows_of k ids col.
Proof.
  unfold rows_of. revert col. induction ids as [|i ids IH]; intros [|x col];
    try done.
  cbn [fmap list_fmap mask_select zip zip_with]. rewrite filter_cons. simpl.
  case_bool_decide; case_decide; try done; simpl; by rewrite IH.
Qed.

Lemma np_getmask_ok {A} (k : obs_id) (ids : list obs_id) (col : list A) :
  length col = length ids →
  np_getmask col ((λ i, bool_decide (i = k)) <$> ids) = Ok (rows_of k ids col).
Proof.
  intros H. unfold np_getmask. rewrite length_fmap, bool_decide_true by done.
  by rewrite mask_select_rows_of.
Qed.

Lemma np_getmask_raise {A} (k : obs_id) (ids : list obs_id) (col : list A) :
  length col ≠ length ids →
  np_getmask col ((λ i, bool_decide (i = k)) <$> ids) = Raise IndexError.
Proof.
  intros H. unfold np_getmask. by rewrite length_fmap, bool_decide_false.
Qed.

Lemma notices_cons g k ks :
  notices g (k :: ks) =
  (if bool_decide (1 < length (remove_dups (g k))) then [note k] else [])
    ++ notices g ks.
Proof.
  unfold notices. rewrite filter_cons.
  case_bool_decide; case_decide; done.
Qed.

Lemma group_single_logs col ids k d :
  length col = length ids →
  logs (group_single col ids k d) (Ok (<[k := rows_of k ids col]> d))
    (if bool_decide (1 < length (remove_dups (rows_of k ids col)))
     then [note k] else []).
Proof.
  intros H. unfold group_single. rewrite np_getmask_ok by done.
  apply logs_bind_lift. eapply logs_bind_quiet.
  { case_bool_decide; [apply logs_print|apply logs_ret]. }
  apply logs_bind_lift, logs_ret.
Qed.

Lemma aggregate_single_loop col ids ks d :
  length col = length ids →
  logs (foldM (group_single col ids) ks d)
    (Ok (insert_groups (λ k, rows_of k ids col) ks d))
    (notices (λ k, rows_of k ids col) ks).
Proof.
  intros H. revert d. induction ks as [|k ks IH]; intros d.
  { apply logs_ret. }
  cbn [foldM]. rewrite notices_cons.
  eapply logs_bind; [by apply group_single_logs|]. apply IH.
Qed.

Lemma aggregate_single_loop_raise col ids k ks d :
  length col ≠ length ids →
  logs (foldM (group_single col ids) (k :: ks) d) (Raise IndexError) [].
Proof.
  intros H. cbn [foldM]. apply logs_bind_raise. unfold group_single.
  rewrite np_getmask_raise by done. apply logs_bind_raise, logs_lift.
Qed.

Lemma group_dichroic_logs sw lw ids k (d : dict * dict) :
  length sw = length ids → length lw = length ids →
  logs (group_dichroic sw lw ids k d)
    (Ok (<[k := rows_of k ids sw]> d.1, <[k := rows_of k ids lw]> d.2))
    (if bool_decide (1 < length (remove_dups (rows_of k ids sw)))
     then [note k] else []).
Proof.
  intros Hs Hl. unfold group_dichroic. rewrite !np_getmask_ok by done.
  apply logs_bind_lift. eapply logs_bind_quiet.
  { case_bool_decide; [apply logs_print|apply logs_ret]. }
  apply logs_bind_lift, logs_bind_lift, logs_ret.
Qed.

Lemma aggregate_dichroic_loop sw lw ids ks (d : dict * dict) :
  length sw = length ids → length lw = length ids →
  logs (foldM (group_dichroic sw lw ids) ks d)
    (Ok (insert_groups (λ k, rows_of k ids sw) ks d.1,
         insert_groups (λ k, rows_of k ids lw) ks d.2))
    (notices (λ k, rows_of k ids sw) ks).
Proof.
  intros Hs Hl. revert d. induction ks as [|k ks IH]; intros d.
  { destruct d. apply logs_ret. }
  cbn [foldM]. rewrite notices_cons.
  eapply logs_bind; [by apply group_dichroic_logs|]. apply IH.
Qed.

Lemma aggregate_dichroic_loop_raise sw lw ids k ks (d : dict * dict) :
  length sw ≠ length ids ∨ length lw ≠ length ids →
  ∃ out, logs (foldM (group_dichroic sw lw ids) (k :: ks) d)
           (Raise IndexError) out.
Proof.
  intros H. cbn [foldM]. unfold group_dichroic.
  destruct (decide (length sw = length ids)) as [Hs|Hs].
  - destruct H as [H|H]; [done|].
    rewrite !(np_getmask_ok _ _ sw), (np_getmask_raise _ _ lw) by done.
    exists (if bool_decide (1 < length (remove_dups (rows_of k ids sw)))
            then [note k] else []).
    apply logs_bind_raise, logs_bind_lift. eapply logs_bind_quiet.
    { case_bool_decide; [apply logs_print|apply logs_ret]. }
    apply logs_bind_lift, logs_bind_raise, logs_lift.
  - rewrite !(np_getmask_raise _ _ sw) by done.
    exists []. apply logs_bind_raise, logs_bind_raise, logs_lift.
Qed.

Lemma lookup_insert_groups g ks (d : dict) k :
  insert_groups g ks d !! k = if decide (k ∈ ks) then Some (g k) else d !! k.
Proof.
  unfold insert_groups. revert d. induction ks as [|x ks IH]; intros d.
  { by rewrite decide_False by apply not_elem_of_nil. }
  cbn [foldl]. rewrite IH. destruct (decide (k ∈ ks)) as [Hin|Hin].
  - by rewrite decide_True by by right.
  - destruct (decide (k = x)) as [->|Hne].
    + rewrite decide_True by by left. by rewrite lookup_insert_eq.
    + rewrite decide_False by (rewrite elem_of_cons; tauto).
      by rewrite lookup_insert_ne.
Qed.

Lemma size_insert_groups g ks (d : dict) :
  NoDup ks → (∀ k, k ∈ ks → d !! k = None) →
  size (insert_groups g ks d) = size d + length ks.
Proof.
  unfold insert_groups. revert d. induction ks as [|x ks IH]; intros d Hnd Hd.
  { simpl. lia. }
  apply NoDup_cons in Hnd as [Hx Hnd]. cbn [foldl length]. rewrite IH; [|done|].
  - rewrite map_size_insert_None by (apply Hd; by left). lia.
  - intros k Hk. rewrite lookup_insert_ne by (intros ->; done).
    apply Hd. by right.
Qed.

(** Two valid iteration orders build the same dictionary, with one entry
    per distinct identifier. *)
Lemma insert_groups_order so g ids :
  set_order_ok so →
  insert_groups g (so ids) ∅ = insert_groups g (remove_dups ids) ∅.
Proof.
  intros Hso. apply map_eq. intros k. rewrite !lookup_insert_groups.
  destruct (Hso ids) as [_ Hin].
  destruct (decide (k ∈ so ids)) as [H|H].
  - by rewrite decide_True by by apply elem_of_remove_dups, Hin.
  - rewrite decide_False; [done|]. by rewrite elem_of_remove_dups, <-Hin.
Qed.

Lemma size_groups g ids :
  size (insert_groups g (remove_dups ids) ∅) = length (remove_dups ids).
Proof.
  rewrite size_insert_groups, map_size_empty; [done|apply NoDup_remove_dups|].
  intros k _. apply lookup_empty.
Qed.

Lemma lookup_groups g ids k :
  insert_groups g (remove_dups ids) ∅ !! k =
  if decide (k ∈ ids) then Some (g k) else None.
Proof.
  rewrite lookup_insert_groups, lookup_empty.
  destruct (decide (k ∈ ids)) as [H|H].
  - by rewrite decide_True by by apply elem_of_remove_dups.
  - by rewrite decide_False by by rewrite elem_of_remove_dups.
Qed.

(** ** The summary, the validation *)

Lemma print_summary_logs xml_file t :
  logs (print_summary xml_file t) (Ok tt) (summary_lines xml_file t).
Proof.
  unfold print_summary, summary_lines.
  apply (logs_bind _ _ tt _ [_]); [apply logs_print|].
  generalize (columns t). intros cols. induction cols as [|c cols IH].
  { apply logs_ret. }
  cbn [foldM fmap list_fmap].
  apply (logs_bind _ _ tt _ [_]); [apply logs_print|apply IH].
Qed.

Lemma remove_dups_two {A} `{EqDecision A} (a b : A) (l : list A) :
  a ∈ l → b ∈ l → a ≠ b → 1 < length (remove_dups l).
Proof.
  intros Ha Hb Hab.
  apply elem_of_remove_dups in Ha, Hb.
  destruct (remove_dups l) as [|x [|y r]]; simpl; [| |lia].
  - by apply elem_of_nil in Ha.
  - apply list_elem_of_singleton in Ha, Hb. congruence.
Qed.

Lemma remove_dups_one {A} `{EqDecision A} (a b : A) (l : list A) :
  ¬ 1 < length (remove_dups l) → a ∈ l → b ∈ l → a = b.
Proof.
  intros Hlen Ha Hb. destruct (decide (a = b)) as [|Hab]; [done|].
  destruct Hlen. by apply (remove_dups_two a b).
Qed.

Lemma validate_mismatch vars lens yaml_file a b :
  all_param_lengths vars = Some lens → a ∈ lens → b ∈ lens → a ≠ b →
  logs (validate vars yaml_file)
    (Raise (ValueError (cardinality_message yaml_file))) [str_list lens].
Proof.
  intros Hv Ha Hb Hab.
  assert (1 < length (remove_dups lens)) by by apply (remove_dups_two a b).
  destruct vars; simplify_eq/=; rewrite bool_decide_true by done.
  - apply (logs_bind_quiet _ _ tt); [apply logs_print|apply logs_lift].
  - apply (logs_bind_quiet _ _ tt); [apply logs_print|apply logs_lift].
Qed.

Lemma validate_pass vars lens yaml_file :
  all_param_lengths vars = Some lens → ¬ 1 < length (remove_dups lens) →
  logs (validate vars yaml_file) (Ok tt) [].
Proof.
  intros Hv Hlen.
  destruct vars; simplify_eq/=; rewrite bool_decide_false by done;
    apply logs_ret.
Qed.

Lemma validate_ok_inv vars yaml_file w w' :
  validate vars yaml_file w = (Ok tt, w') →
  w' = w ∧ ∃ lens, all_param_lengths vars = Some lens
                   ∧ ¬ 1 < length (remove_dups lens).
Proof.
  destruct vars as [sw lw lens|f c lens|]; simpl; [| |done];
    (case_bool_decide; [done|]); intros [= <-]; eauto.
Qed.

(** ** [setup] and [prepare] *)

Lemma aggregate_single_logs so t :
  length (PupilWheel t) = length (ObservationID t) →
  logs (aggregate_single so t)
    (Ok (insert_groups (λ k, rows_of k (ObservationID t) (PupilWheel t))
           (so (ObservationID t)) ∅))
    (notices (λ k, rows_of k (ObservationID t) (PupilWheel t))
       (so (ObservationID t))).
Proof. intros H. by apply aggregate_single_loop. Qed.

Lemma aggregate_dichroic_logs so t :
  length (ShortFilter t) = length (ObservationID t) →
  length (LongFilter t) = length (ObservationID t) →
  logs (aggregate_dichroic so t)
    (Ok (insert_groups (λ k, rows_of k (ObservationID t) (ShortFilter t))
           (so (ObservationID t)) ∅,
         insert_groups (λ k, rows_of k (ObservationID t) (LongFilter t))
           (so (ObservationID t)) ∅))
    (notices (λ k, rows_of k (ObservationID t) (ShortFilter t))
       (so (ObservationID t))).
Proof. intros Hs Hl. by apply (aggregate_dichroic_loop _ _ _ _ (∅, ∅)). Qed.

(** The grouping loops always end, with a dictionary or with [IndexError]. *)
Lemma aggregate_single_total so t :
  ∃ r out, logs (aggregate_single so t) r out
    ∧ (∀ d, r = Ok d →
         d = insert_groups (λ k, rows_of k (ObservationID t) (PupilWheel t))
               (so (ObservationID t)) ∅
         ∧ (length (PupilWheel t) = length (ObservationID t)
            ∨ so (ObservationID t) = []))
    ∧ (∀ e, r = Raise e →
         e = IndexError ∧ so (ObservationID t) ≠ []
         ∧ length (PupilWheel t) ≠ length (ObservationID t)).
Proof.
  destruct (decide (length (PupilWheel t) = length (ObservationID t))) as [H|H].
  { eexists _, _. split; [by apply aggregate_single_logs|].
    split; [|intros e; done]. intros d [= <-]. eauto. }
  unfold aggregate_single. destruct (so (ObservationID t)) as [|k ks].
  - exists (Ok ∅), []. split; [apply logs_ret|].
    split; [|intros e; done]. intros d [= <-]. eauto.
  - exists (Raise IndexError), [].
    split; [by apply aggregate_single_loop_raise|]. split; [done|].
    by intros e [= <-].
Qed.

Lemma aggregate_dichroic_total so t :
  ∃ r out, logs (aggregate_dichroic so t) r out
    ∧ (∀ d, r = Ok d →
         d = (insert_groups
                (λ k, rows_of k (ObservationID t) (ShortFilter t))
                (so (ObservationID t)) ∅,
              insert_groups
                (λ k, rows_of k (ObservationID t) (LongFilter t))
                (so (ObservationID t)) ∅)
         ∧ ((length (ShortFilter t) = length (ObservationID t)
             ∧ length (LongFilter t) = length (ObservationID t))
            ∨ so (ObservationID t) = []))
    ∧ (∀ e, r = Raise e →
         e = IndexError ∧ so (ObservationID t) ≠ []
         ∧ ¬ (length (ShortFilter t) = length (ObservationID t)
              ∧ length (LongFilter t) = length (ObservationID t))).
Proof.
  destruct (decide (length (ShortFilter t) = length (ObservationID t)
                    ∧ length (LongFilter t) = length (ObservationID t)))
    as [[Hs Hl]|H].
  { eexists _, _. split; [by apply aggregate_dichroic_logs|].
    split; [|intros e; done]. intros d [= <-]. eauto. }
  unfold aggregate_dichroic. destruct (so (ObservationID t)) as [|k ks].
  - exists (Ok (∅, ∅)), []. split; [apply logs_ret|].
    split; [|intros e; done]. intros d [= <-]. eauto.
  - destruct (aggregate_dichroic_loop_raise (ShortFilter t) (LongFilter t)
                (ObservationID t) k ks (∅, ∅)) as [out Hout].
    { apply not_and_l in H. tauto. }
    exists (Raise IndexError), out. split; [done|]. split; [done|].
    by intros e [= <-].
Qed.

Lemma prepare_logs_mixed so obs t xml cats sw lw :
  1 < length (np_unique (Instrument t)) →
  logs (prepare so obs t xml cats sw lw) (Raise NotImplementedError)
    (summary_lines xml t).
Proof.
  intros H. unfold prepare.
  apply (logs_bind_quiet _ _ tt); [apply print_summary_logs|].
  rewrite bool_decide_true by done. apply logs_lift.
Qed.

Lemma prepare_logs_empty so obs t xml cats sw lw :
  np_unique (Instrument t) = [] →
  logs (prepare so obs t xml cats sw lw) (Raise IndexError)
    (summary_lines xml t).
Proof.
  intros H. unfold prepare. rewrite H.
  apply (logs_bind_quiet _ _ tt); [apply print_summary_logs|].
  simpl. apply logs_bind_raise, logs_lift.
Qed.

Lemma prepare_logs_ok so obs t xml cats sw lw x vars out :
  np_unique (Instrument t) = [x] →
  logs (setup so x t (select obs) (catalog_list cats) sw lw) (Ok vars) out →
  logs (prepare so obs t xml cats sw lw) (Ok (x, vars))
    (summary_lines xml t ++ out).
Proof.
  intros H Hs. unfold prepare. rewrite H.
  apply (logs_bind _ _ tt); [apply print_summary_logs|].
  simpl. apply logs_bind_lift. eapply logs_bind_quiet; [done|apply logs_ret].
Qed.

Lemma prepare_logs_raise so obs t xml cats sw lw x e out :
  np_unique (Instrument t) = [x] →
  logs (setup so x t (select obs) (catalog_list cats) sw lw) (Raise e) out →
  logs (prepare so obs t xml cats sw lw) (Raise e)
    (summary_lines xml t ++ out).
Proof.
  intros H Hs. unfold prepare. rewrite H.
  apply (logs_bind _ _ tt); [apply print_summary_logs|].
  simpl. apply logs_bind_lift. by apply logs_bind_raise.
Qed.

Lemma setup_total so x t sel cats sw lw :
  ∃ r out, logs (setup so x t sel cats sw lw) r out
    ∧ ∀ vars, r = Ok vars → setup_shape so x t sel cats sw lw vars.
Proof.
  unfold setup, setup_shape. case_bool_decide.
  - destruct (aggregate_dichroic_total so t) as ([d|e] & out & Hl & Hd & _).
    + destruct (Hd d eq_refl) as [-> Hwf].
      destruct sw as [l1|]; [destruct lw as [l2|]|]; eexists _, _.
      * split.
        { eapply logs_bind_quiet; [done|].
          apply logs_bind_lift, logs_bind_lift, logs_ret. }
        intros vars [= <-]. left. split; [done|]. split; [|done].
        by eexists _, _.
      * split.
        { eapply logs_bind_quiet; [done|].
          apply logs_bind_lift, logs_bind_raise, logs_lift. }
        by intros vars.
      * split.
        { eapply logs_bind_quiet; [done|]. apply logs_bind_raise, logs_lift. }
        by intros vars.
    + eexists _, _. split; [by apply logs_bind_raise|done].
  - case_bool_decide.
    + destruct (aggregate_single_total so t) as ([d|e] & out & Hl & Hd & _).
      * destruct (Hd d eq_refl) as [-> Hwf]. eexists _, _. split.
        { eapply logs_bind_quiet; [done|]. apply logs_ret. }
        intros vars [= <-]. right. left. done.
      * eexists _, _. split; [by apply logs_bind_raise|done].
    + eexists _, _. split; [apply logs_ret|].
      intros vars [= <-]. right. right. done.
Qed.

Lemma prepare_total so obs t xml cats sw lw :
  ∃ r out, logs (prepare so obs t xml cats sw lw) r out
    ∧ ∀ iv, r = Ok iv →
        np_unique (Instrument t) = [iv.1]
        ∧ setup_shape so iv.1 t (select obs) (catalog_list cats) sw lw iv.2.
Proof.
  destruct (np_unique (Instrument t)) as [|x [|y u]] eqn:Eu.
  - eexists _, _. split; [by apply prepare_logs_empty|by intros iv].
  - destruct (setup_total so x t (select obs) (catalog_list cats) sw lw)
      as ([vars|e] & out & Hs & Hshape); eexists _, _.
    + split; [by eapply prepare_logs_ok|]. intros iv [= <-]. eauto.
    + split; [by eapply prepare_logs_raise|by intros iv].
  - eexists _, _. split.
    { apply prepare_logs_mixed. rewrite Eu. simpl. lia. }
    by intros iv.
Qed.

(** What a run of [prepare] that returns tells about the inputs. *)
Lemma prepare_ok_inv so obs t xml cats sw lw w iv w1 :
  prepare so obs t xml cats sw lw w = (Ok iv, w1) →
  fs w1 = fs w ∧ np_unique (Instrument t) = [iv.1]
  ∧ setup_shape so iv.1 t (select obs) (catalog_list cats) sw lw iv.2.
Proof.
  destruct (prepare_total so obs t xml cats sw lw) as (r & out & H & Hiv).
  rewrite H. intros [= -> <-]. split; [done|]. by apply Hiv.
Qed.

(** [prepare] writes no file. *)
Lemma prepare_fs so obs t xml cats sw lw w r w1 :
  prepare so obs t xml cats sw lw w = (r, w1) → fs w1 = fs w.
Proof.
  destruct (prepare_total so obs t xml cats sw lw) as (r' & out & H & _).
  rewrite H. by intros [= <- <-].
Qed.

(** ** [write_yaml] from its two halves *)

Lemma write_yaml_run so obs t xml yaml cats sw lw w :
  write_yaml so obs t xml yaml cats sw lw w =
  match prepare so obs t xml cats sw lw w with
  | (Ok iv, w1) => finish obs yaml sw lw iv w1
  | (Raise e, w1) => (Raise e, w1)
  end.
Proof. reflexivity. Qed.

Lemma finish_invalid obs yaml sw lw iv e o w :
  logs (validate iv.2 yaml) (Raise e) o →
  finish obs yaml sw lw iv w = (Raise e, {| stdout := stdout w ++ o; fs := fs w |}).
Proof. intros H. unfold finish. by rewrite bind_run, H. Qed.

Lemma finish_valid obs yaml sw lw iv w :
  logs (validate iv.2 yaml) (Ok tt) [] →
  finish obs yaml sw lw iv w =
  match render iv.1 (select obs) iv.2 sw lw with
  | Ok write =>
      (Ok tt,
       {| stdout := stdout w ++
            [LF +:+ "Successfully wrote "
               +:+ pretty (length (observations (select obs)))
               +:+ " observations to " +:+ yaml];
          fs := <[yaml := text write]> (fs w) |})
  | Raise e => (Raise e, w)
  end.
Proof.
  intros H. unfold finish. rewrite bind_run, H, app_nil_r, world_eta.
  rewrite bind_run. unfold lift. by destruct (render _ _ _ _ _).
Qed.

(** ** Unsupported configurations and missing arguments *)

(** C4: a table with two different instrument values makes the conversion
    raise [NotImplementedError] right after the summary is printed: the
    grouping loops have not run, no notice is printed and no file is
    written. *)
Theorem mixed_instruments_unsupported so obs t xml yaml cats sw lw w a b :
  a ∈ Instrument t → b ∈ Instrument t → a ≠ b →
  write_yaml so obs t xml yaml cats sw lw w =
    (Raise NotImplementedError,
     {| stdout := stdout w ++ summary_lines xml t; fs := fs w |}).
Proof.
  intros Ha Hb Hab. rewrite write_yaml_run.
  by rewrite (prepare_logs_mixed so obs t xml cats sw lw
                (np_unique_two a b _ Ha Hb Hab)).
Qed.

Lemma mixed_instruments_unsupported_witness :
  write_yaml remove_dups ex_nircam_obs ex_mixed_table "in.xml" "out.yaml"
    (CatStr "stars.cat") (Some ["sw.cat"]) (Some ["lw.cat"]) w0 =
    (Raise NotImplementedError,
     {| stdout := summary_lines "in.xml" ex_mixed_table; fs := ∅ |}).
Proof.
  apply (mixed_instruments_unsupported remove_dups ex_nircam_obs ex_mixed_table
           "in.xml" "out.yaml" (CatStr "stars.cat") (Some ["sw.cat"])
           (Some ["lw.cat"]) w0 "NIRCAM" "NIRISS").
  - by left.
  - right. by left.
  - done.
Defined.

Lemma setup_dichroic_none so x t sel cats sw lw :
  x ∈ ["NIRCAM"; "WFSC"] →
  length (ShortFilter t) = length (ObservationID t) →
  length (LongFilter t) = length (ObservationID t) →
  sw = None ∨ lw = None →
  logs (setup so x t sel cats sw lw) (Raise TypeError)
    (notices (λ k, rows_of k (ObservationID t) (ShortFilter t))
       (so (ObservationID t))).
Proof.
  intros Hx Hs Hl Hnone. unfold setup. rewrite bool_decide_true by done.
  eapply logs_bind_quiet; [by apply aggregate_dichroic_logs|].
  destruct sw as [l1|]; [destruct lw as [l2|]|].
  - by destruct Hnone.
  - apply logs_bind_lift, logs_bind_raise, logs_lift.
  - apply logs_bind_raise, logs_lift.
Qed.

(** C10: in the dichroic family, a per-channel catalog left at [None] makes
    the conversion raise [TypeError] where the lengths are taken: after the
    summary and the grouping notices, before the validation prints or
    raises anything, and with no file written. The columns are of equal
    length, as the reader contract says. *)
Theorem dichroic_catalog_none so obs t xml yaml cats sw lw w x :
  Instrument t ≠ [] → (∀ y, y ∈ Instrument t → y = x) →
  x ∈ ["NIRCAM"; "WFSC"] →
  length (ShortFilter t) = length (ObservationID t) →
  length (LongFilter t) = length (ObservationID t) →
  sw = None ∨ lw = None →
  write_yaml so obs t xml yaml cats sw lw w =
    (Raise TypeError,
     {| stdout := stdout w ++ summary_lines xml t
          ++ notices (λ k, rows_of k (ObservationID t) (ShortFilter t))
               (so (ObservationID t));
        fs := fs w |}).
Proof.
  intros Hne Hall Hx Hs Hl Hnone. rewrite write_yaml_run.
  by rewrite (prepare_logs_raise so obs t xml cats sw lw x TypeError _
                (np_unique_single x _ Hne Hall)
                (setup_dichroic_none so x t _ _ sw lw Hx Hs Hl Hnone)).
Qed.

Lemma dichroic_catalog_none_witness :
  write_yaml remove_dups ex_nircam_obs ex_nircam_table "in.xml" "out.yaml"
    (CatStr "stars.cat") (Some ["a.cat"; "b.cat"]) None w0 =
    (Raise TypeError,
     {| stdout := summary_lines "in.xml" ex_nircam_table; fs := ∅ |}).
Proof.
  etrans.
  - apply (dichroic_catalog_none remove_dups ex_nircam_obs ex_nircam_table
             "in.xml" "out.yaml" (CatStr "stars.cat") (Some ["a.cat"; "b.cat"])
             None w0 "NIRCAM").
    + done.
    + intros y Hy. repeat (apply elem_of_cons in Hy as [->|Hy]; [done|]).
      by apply elem_of_nil in Hy.
    + by left.
    + reflexivity.
    + reflexivity.
    + by right.
  - by vm_compute.
Defined.

(** ** Selection *)

Lemma select_fold (s : selection) (l : list (nat * node)) :
  foldl select_step s l =
  {| observations := observations s
       ++ (filter (λ io, Instrument_text io.2 ∈ supported) l).*2;
     i_observations := i_observations s
       ++ (filter (λ io, Instrument_text io.2 ∈ supported) l).*1;
     obs_names := obs_names s
       ++ ((λ io, obs_name (Label_text io.2))
             <$> filter (λ io, Instrument_text io.2 ∈ supported) l);
     instruments := instruments s
       ++ ((λ io, Instrument_text io.2)
             <$> filter (λ io, Instrument_text io.2 ∈ supported) l) |}.
Proof.
  revert s. induction l as [|[i o] l IH]; intros s.
  { destruct s. simpl. by rewrite !app_nil_r. }
  cbn [foldl]. rewrite IH, filter_cons. unfold select_step at 1 2 3 4.
  cbn [snd]. case_bool_decide; case_decide; try done; simpl.
  by rewrite <-!app_assoc.
Qed.

Lemma select_i_observations obs :
  i_observations (select obs) = supported_positions obs.
Proof. unfold select. by rewrite select_fold. Qed.

Lemma select_lengths obs :
  length (i_observations (select obs)) = length (observations (select obs))
  ∧ length (obs_names (select obs)) = length (observations (select obs)).
Proof.
  unfold select. rewrite select_fold. simpl. by rewrite !length_fmap.
Qed.

Lemma elem_of_enumerate {A} (l : list A) i x :
  (i, x) ∈ enumerate l → l !! i = Some x.
Proof.
  unfold enumerate. intros H. apply list_elem_of_lookup in H as [j Hj].
  apply lookup_zip_Some in Hj as [Hi Hx].
  apply lookup_seq in Hi as [-> _]. done.
Qed.

(** The [j]-th selected observation is the node at position
    [i_observations[j]] of the unfiltered list; its name comes from that
    node's label. *)
Lemma select_lookup obs j pos :
  i_observations (select obs) !! j = Some pos →
  ∃ o, obs !! pos = Some o ∧ Instrument_text o ∈ supported
       ∧ observations (select obs) !! j = Some o
       ∧ obs_names (select obs) !! j = Some (obs_name (Label_text o)).
Proof.
  unfold select. rewrite select_fold. simpl. intros H.
  apply list_lookup_fmap_Some in H as ([p o] & -> & Hpo).
  exists o. simpl.
  assert ((p, o) ∈ filter (λ io, Instrument_text io.2 ∈ supported)
                      (enumerate obs)) as Hin
    by (apply list_elem_of_lookup; eauto).
  apply list_elem_of_filter in Hin as [Hsup Hin].
  split; [by apply elem_of_enumerate|]. split; [done|].
  by rewrite !list_lookup_fmap, Hpo.
Qed.

Lemma StronglySorted_lt_seq a n : StronglySorted lt (seq a n).
Proof.
  revert a. induction n as [|n IH]; intros a; simpl; constructor; [apply IH|].
  apply Forall_forall. intros x Hx%elem_of_seq. lia.
Qed.

Lemma StronglySorted_sublist {A} (R : relation A) (l k : list A) :
  sublist l k → StronglySorted R k → StronglySorted R l.
Proof.
  induction 1 as [|x l k Hs IH|x l k Hs IH]; intros Hk; [done|..].
  - apply StronglySorted_inv in Hk as [Hk Hx]. constructor; [by apply IH|].
    eapply Forall_forall. intros y Hy. eapply Forall_forall in Hx; [done|].
    by eapply elem_of_sublist.
  - apply StronglySorted_inv in Hk as [Hk _]. by apply IH.
Qed.

Lemma supported_positions_sorted obs :
  StronglySorted lt (supported_positions obs).
Proof.
  unfold supported_positions.
  eapply StronglySorted_sublist; [|apply (StronglySorted_lt_seq 0 (length obs))].
  replace (seq 0 (length obs)) with ((enumerate obs).*1)
    by (apply fst_zip; by rewrite length_seq).
  apply fmap_sublist, sublist_filter.
Qed.

(** ** Rendering *)

Lemma result_bind_ok {A B} (a : A) (f : A → result B) : Ok a ≫= f = f a.
Proof. reflexivity. Qed.

Lemma foldM_cons {A S} (body : A → S → result S) x l s :
  foldM body (x :: l) s = body x s ≫= foldM body l.
Proof. reflexivity. Qed.

Lemma render_filter_ok cats i cat (c : nat * string) write :
  cats !! i = Some cat →
  render_filter cats i c write = Ok (write ++ filter_block c.2 cat).
Proof. intros Hc. destruct c. unfold render_filter, getitem. by rewrite Hc. Qed.

Lemma render_filter_none cats i (c : nat * string) write :
  cats !! i = None → render_filter cats i c write = Raise IndexError.
Proof. intros Hc. destruct c. unfold render_filter, getitem. by rewrite Hc. Qed.

Lemma render_filter_loop_ok cats i cat (cfgs : list (nat * string)) write :
  cats !! i = Some cat →
  foldM (render_filter cats i) cfgs write =
  Ok (write ++ concat ((λ c, filter_block c.2 cat) <$> cfgs)).
Proof.
  intros Hc. revert write. induction cfgs as [|c cfgs IH]; intros write.
  { simpl. by rewrite app_nil_r. }
  rewrite foldM_cons, (render_filter_ok _ _ cat), result_bind_ok, IH by done.
  by rewrite fmap_cons, <-app_assoc.
Qed.

Lemma render_filter_loop_none cats i (c : nat * string) cfgs write :
  cats !! i = None →
  foldM (render_filter cats i) (c :: cfgs) write = Raise IndexError.
Proof.
  intros Hc. by rewrite foldM_cons, render_filter_none.
Qed.

Lemma snd_enumerate {A} (l : list A) : (enumerate l).*2 = l.
Proof. apply snd_zip. by rewrite length_seq. Qed.

Lemma single_body_enumerate fl cat :
  concat ((λ c : nat * string, filter_block c.2 cat) <$> enumerate fl)
  = single_body fl cat.
Proof.
  unfold single_body. rewrite <-(snd_enumerate fl) at 2.
  by rewrite <-list_fmap_compose.
Qed.

(** One turn of the loop of lines 223-249, case by case. *)
Lemma render_single_unfold sel filters cats i write :
  render_single sel filters cats i write =
  match i_observations sel !! i, obs_names sel !! i with
  | Some pos, Some name =>
      match filters !! IdInt (Z.of_nat i) with
      | Some fl =>
          foldM (render_filter cats i) (enumerate fl)
            (write ++ obs_header (pos + 1) name)
      | None => Raise (KeyError (IdInt (Z.of_nat i)))
      end
  | _, _ => Raise IndexError
  end.
Proof.
  unfold render_single, getitem, getkey.
  destruct (i_observations sel !! i); [|done].
  destruct (obs_names sel !! i); [|done].
  simpl. by destruct (filters !! IdInt (Z.of_nat i)).
Qed.

Lemma render_single_ok_inv sel filters cats i write write' :
  render_single sel filters cats i write = Ok write' →
  ∃ blk, single_block sel filters cats i blk ∧ write' = write ++ blk.
Proof.
  rewrite render_single_unfold. unfold single_block.
  destruct (i_observations sel !! i) as [pos|]; [|done].
  destruct (obs_names sel !! i) as [name|]; [|done].
  destruct (filters !! IdInt (Z.of_nat i)) as [fl|]; [|done].
  destruct (cats !! i) as [cat|] eqn:Hc.
  - rewrite (render_filter_loop_ok _ _ cat) by done.
    rewrite single_body_enumerate. intros [= <-].
    eexists. split; [by eexists pos, name, fl, cat; eauto 10|].
    by rewrite app_assoc.
  - destruct fl as [|f fl].
    + intros [= <-]. eexists. split; [by eexists pos, name, [], EmptyString; eauto 10|].
      unfold single_body. cbn [fmap list_fmap concat]. by rewrite app_nil_r.
    + unfold enumerate. cbn [length seq zip zip_with].
      by rewrite render_filter_loop_none.
Qed.

(** Within bounds, a turn either succeeds or misses its filter group. *)
Lemma render_single_bounds sel filters cats i write :
  i < length (i_observations sel) → i < length (obs_names sel) →
  i < length cats →
  (∃ write', render_single sel filters cats i write = Ok write'
             ∧ is_Some (filters !! IdInt (Z.of_nat i)))
  ∨ (render_single sel filters cats i write
       = Raise (KeyError (IdInt (Z.of_nat i)))
     ∧ filters !! IdInt (Z.of_nat i) = None).
Proof.
  intros [pos Hp]%lookup_lt_is_Some_2 [name Hn]%lookup_lt_is_Some_2
    [cat Hc]%lookup_lt_is_Some_2.
  rewrite render_single_unfold, Hp, Hn.
  destruct (filters !! IdInt (Z.of_nat i)) as [fl|]; [left|by right].
  rewrite (render_filter_loop_ok _ _ cat) by done. eauto.
Qed.

Lemma render_single_loop_inv sel filters cats l write write' :
  foldM (render_single sel filters cats) l write = Ok write' →
  ∃ blocks, Forall2 (single_block sel filters cats) l blocks
            ∧ write' = write ++ concat blocks.
Proof.
  revert write. induction l as [|i l IH]; intros write.
  { intros [= <-]. exists []. split; [constructor|]. simpl.
    by rewrite app_nil_r. }
  rewrite foldM_cons.
  destruct (render_single sel filters cats i write) as [w1|e] eqn:E; [|done].
  apply render_single_ok_inv in E as (blk & Hblk & ->).
  rewrite result_bind_ok. intros (blocks & Hbs & ->)%IH.
  exists (blk :: blocks). split; [by constructor|].
  simpl. by rewrite app_assoc.
Qed.

Lemma render_single_loop_bounds sel filters cats l write :
  (∀ i, i ∈ l → i < length (i_observations sel)
                ∧ i < length (obs_names sel) ∧ i < length cats) →
  (∃ write', foldM (render_single sel filters cats) l write = Ok write'
             ∧ ∀ i, i ∈ l → is_Some (filters !! IdInt (Z.of_nat i)))
  ∨ (∃ i, i ∈ l ∧ filters !! IdInt (Z.of_nat i) = None
          ∧ foldM (render_single sel filters cats) l write
            = Raise (KeyError (IdInt (Z.of_nat i)))).
Proof.
  revert write. induction l as [|i l IH]; intros write Hb.
  { left. exists write. split; [done|]. intros i Hi.
    by apply elem_of_nil in Hi. }
  destruct (Hb i) as (H1 & H2 & H3); [by left|].
  rewrite foldM_cons.
  destruct (render_single_bounds sel filters cats i write H1 H2 H3)
    as [(w1 & -> & Hsome)|[-> Hnone]].
  - rewrite result_bind_ok.
    destruct (IH w1) as [(w2 & Hw2 & Hall)|(j & Hj & Hnone & Hr)].
    { intros j Hj. apply Hb. by right. }
    + left. exists w2. split; [done|].
      intros j [->|Hj]%elem_of_cons; [done|by apply Hall].
    + right. exists j. split; [by right|done].
  - right. exists i. split; [by left|done].
Qed.

Lemma render_config_ok sw lw i c1 c2 (c : nat * (string * string)) write :
  getitem_opt sw i = Ok c1 → getitem_opt lw i = Ok c2 →
  render_config sw lw i c write
  = Ok (write ++ filter_config c.1 c.2.1 c.2.2 c1 c2).
Proof.
  intros H1 H2. destruct c as [n [f g]]. unfold render_config.
  by rewrite H1, H2.
Qed.

Lemma render_config_loop_ok sw lw i c1 c2 cfgs write :
  getitem_opt sw i = Ok c1 → getitem_opt lw i = Ok c2 →
  foldM (render_config sw lw i) cfgs write =
  Ok (write ++ concat ((λ c, filter_config c.1 c.2.1 c.2.2 c1 c2) <$> cfgs)).
Proof.
  intros H1 H2. revert write. induction cfgs as [|c cfgs IH]; intros write.
  { simpl. by rewrite app_nil_r. }
  rewrite foldM_cons, (render_config_ok _ _ _ c1 c2), result_bind_ok, IH
    by done.
  by rewrite fmap_cons, <-app_assoc.
Qed.

Lemma render_config_loop_inv sw lw i cfgs write write' :
  foldM (render_config sw lw i) cfgs write = Ok write' →
  (cfgs = [] ∧ write' = write)
  ∨ ∃ c1 c2, getitem_opt sw i = Ok c1 ∧ getitem_opt lw i = Ok c2
             ∧ write' = write ++ concat
                 ((λ c, filter_config c.1 c.2.1 c.2.2 c1 c2) <$> cfgs).
Proof.
  destruct cfgs as [|[n [f g]] cfgs]; [intros [= <-]; by left|].
  destruct (getitem_opt sw i) as [c1|e1] eqn:E1.
  - destruct (getitem_opt lw i) as [c2|e2] eqn:E2.
    + rewrite (render_config_loop_ok _ _ _ c1 c2) by done.
      intros [= <-]. right. eauto.
    + rewrite foldM_cons. unfold render_config. by rewrite E1, E2.
  - rewrite foldM_cons. unfold render_config. by rewrite E1.
Qed.

(** One turn of the loop of lines 181-220, case by case. *)
Lemma render_dichroic_unfold sel swf lwf sw lw i write :
  render_dichroic sel swf lwf sw lw i write =
  match i_observations sel !! i, obs_names sel !! i with
  | Some pos, Some name =>
      match swf !! IdInt (Z.of_nat (pos + 1)),
            lwf !! IdInt (Z.of_nat (pos + 1)) with
      | Some fs, Some fl =>
          foldM (render_config sw lw i) (enumerate (zip fs fl))
            (write ++ obs_header (pos + 1) name)
      | _, _ => Raise (KeyError (IdInt (Z.of_nat (pos + 1))))
      end
  | _, _ => Raise IndexError
  end.
Proof.
  unfold render_dichroic, getitem, getkey.
  destruct (i_observations sel !! i) as [pos|]; [|done].
  destruct (obs_names sel !! i); [|done].
  simpl. destruct (swf !! IdInt (Z.of_nat (pos + 1))); [|done].
  simpl. by destruct (lwf !! IdInt (Z.of_nat (pos + 1))).
Qed.

Lemma render_dichroic_ok_inv sel swf lwf sw lw i write write' :
  render_dichroic sel swf lwf sw lw i write = Ok write' →
  ∃ blk, dichroic_block sel swf lwf sw lw i blk ∧ write' = write ++ blk.
Proof.
  rewrite render_dichroic_unfold. unfold dichroic_block.
  destruct (i_observations sel !! i) as [pos|]; [|done].
  destruct (obs_names sel !! i) as [name|]; [|done].
  destruct (swf !! IdInt (Z.of_nat (pos + 1))) as [fs|] eqn:Es; [|done].
  destruct (lwf !! IdInt (Z.of_nat (pos + 1))) as [fl|] eqn:El; [|done].
  intros [[Hnil ->]|(c1 & c2 & H1 & H2 & ->)]%render_config_loop_inv.
  - eexists. split.
    + eexists pos, name, fs, fl, EmptyString, EmptyString. split_and!; try done.
      left. unfold enumerate in Hnil. destruct (zip fs fl); [done|].
      by simpl in Hnil.
    + unfold dichroic_body. rewrite Hnil. cbn [fmap list_fmap concat].
      by rewrite app_nil_r.
  - eexists. split.
    + eexists pos, name, fs, fl, c1, c2. split_and!; try done. by right.
    + by rewrite app_assoc.
Qed.

Lemma render_dichroic_bounds sel swf lwf cs cl i pos write :
  i_observations sel !! i = Some pos → i < length (obs_names sel) →
  i < length cs → i < length cl →
  (∀ k, swf !! k = None ↔ lwf !! k = None) →
  (∃ write', render_dichroic sel swf lwf (Some cs) (Some cl) i write
             = Ok write'
             ∧ is_Some (swf !! IdInt (Z.of_nat (pos + 1))))
  ∨ (render_dichroic sel swf lwf (Some cs) (Some cl) i write
       = Raise (KeyError (IdInt (Z.of_nat (pos + 1))))
     ∧ swf !! IdInt (Z.of_nat (pos + 1)) = None).
Proof.
  intros Hp [name Hn]%lookup_lt_is_Some_2 [c1 H1]%lookup_lt_is_Some_2
    [c2 H2]%lookup_lt_is_Some_2 Hdom.
  rewrite render_dichroic_unfold, Hp, Hn.
  destruct (swf !! IdInt (Z.of_nat (pos + 1))) as [fs|] eqn:Es; [|by right].
  destruct (lwf !! IdInt (Z.of_nat (pos + 1))) as [fl|] eqn:El.
  - left. rewrite (render_config_loop_ok _ _ _ c1 c2); eauto.
    + unfold getitem_opt, getitem. by rewrite H1.
    + unfold getitem_opt, getitem. by rewrite H2.
  - apply Hdom in El. congruence.
Qed.

Lemma render_dichroic_loop_inv sel swf lwf sw lw l write write' :
  foldM (render_dichroic sel swf lwf sw lw) l write = Ok write' →
  ∃ blocks, Forall2 (dichroic_block sel swf lwf sw lw) l blocks
            ∧ write' = write ++ concat blocks.
Proof.
  revert write. induction l as [|i l IH]; intros write.
  { intros [= <-]. exists []. split; [constructor|]. simpl.
    by rewrite app_nil_r. }
  rewrite foldM_cons.
  destruct (render_dichroic sel swf lwf sw lw i write) as [w1|e] eqn:E;
    [|done].
  apply render_dichroic_ok_inv in E as (blk & Hblk & ->).
  rewrite result_bind_ok. intros (blocks & Hbs & ->)%IH.
  exists (blk :: blocks). split; [by constructor|].
  simpl. by rewrite app_assoc.
Qed.

Lemma render_dichroic_loop_bounds sel swf lwf cs cl l write :
  (∀ i, i ∈ l → i < length (i_observations sel)
                ∧ i < length (obs_names sel)
                ∧ i < length cs ∧ i < length cl) →
  (∀ k, swf !! k = None ↔ lwf !! k = None) →
  (∃ write', foldM (render_dichroic sel swf lwf (Some cs) (Some cl)) l write
             = Ok write'
             ∧ ∀ i pos, i ∈ l → i_observations sel !! i = Some pos →
                 is_Some (swf !! IdInt (Z.of_nat (pos + 1))))
  ∨ (∃ i pos, i ∈ l ∧ i_observations sel !! i = Some pos
              ∧ swf !! IdInt (Z.of_nat (pos + 1)) = None
              ∧ foldM (render_dichroic sel swf lwf (Some cs) (Some cl)) l write
                = Raise (KeyError (IdInt (Z.of_nat (pos + 1))))).
Proof.
  intros Hb Hdom. revert write Hb. induction l as [|i l IH]; intros write Hb.
  { left. exists write. split; [done|]. intros i pos Hi.
    by apply elem_of_nil in Hi. }
  destruct (Hb i) as ([pos Hp]%lookup_lt_is_Some_2 & H2 & H3 & H4); [by left|].
  rewrite foldM_cons.
  destruct (render_dichroic_bounds sel swf lwf cs cl i pos write Hp H2 H3 H4
              Hdom) as [(w1 & -> & Hsome)|[-> Hnone]].
  - rewrite result_bind_ok.
    destruct (IH w1) as [(w2 & Hw2 & Hall)|(j & q & Hj & Hq & Hnone & Hr)].
    { intros j Hj. apply Hb. by right. }
    + left. exists w2. split; [done|].
      intros j q [->|Hj]%elem_of_cons Hq; [|by eapply Hall].
      by simplify_eq.
    + right. exists j, q. split; [by right|done].
  - right. exists i, pos. split; [by left|done].
Qed.

(** ** The dictionaries under a valid iteration order *)

Lemma lookup_groups_order so t col k :
  set_order_ok so →
  groups so t col !! k =
  if decide (k ∈ ObservationID t)
  then Some (rows_of k (ObservationID t) col) else None.
Proof.
  intros Hso. unfold groups. rewrite insert_groups_order by done.
  apply lookup_groups.
Qed.

Lemma size_groups_order so t col :
  set_order_ok so →
  size (groups so t col) = length (remove_dups (ObservationID t)).
Proof.
  intros Hso. unfold groups. rewrite insert_groups_order by done.
  apply size_groups.
Qed.

Lemma groups_same_keys so t col1 col2 k :
  groups so t col1 !! k = None ↔ groups so t col2 !! k = None.
Proof.
  unfold groups. rewrite !lookup_insert_groups, lookup_empty.
  by destruct (decide (k ∈ so (ObservationID t))).
Qed.


Lemma rows_of_nonempty {A} k ids (col : list A) :
  k ∈ ids → length col = length ids → rows_of k ids col ≠ [].
Proof.
  unfold rows_of. revert col. induction ids as [|i ids IH]; intros col Hk Hlen.
  { by apply elem_of_nil in Hk. }
  destruct col as [|x col]; [done|]. cbn [zip zip_with]. rewrite filter_cons.
  cbn [fst]. case_decide as Hik; [done|].
  apply elem_of_cons in Hk as [->|Hk]; [done|].
  apply IH; [done|]. simpl in Hlen. lia.
Qed.

Lemma broadcast_single c n : broadcast [c] n = replicate n c.
Proof.
  unfold broadcast. rewrite bool_decide_true by done.
  induction n as [|n IH]; [done|]. simpl. by rewrite IH.
Qed.

(** ** What a successful run went through *)

Lemma finish_ok_inv obs yaml sw lw iv w w' :
  finish obs yaml sw lw iv w = (Ok tt, w') →
  (∃ lens, all_param_lengths iv.2 = Some lens
           ∧ ¬ 1 < length (remove_dups lens))
  ∧ ∃ write, render iv.1 (select obs) iv.2 sw lw = Ok write
             ∧ fs w' = <[yaml := text write]> (fs w).
Proof.
  unfold finish. rewrite bind_run.
  destruct (validate iv.2 yaml w) as [[[]|e] w1] eqn:Ev; [|done].
  apply validate_ok_inv in Ev as [-> Hlens]. rewrite bind_run. unfold lift.
  destruct (render iv.1 (select obs) iv.2 sw lw) as [write|e]; [|done].
  intros [= <-]. split; [done|]. by exists write.
Qed.

Lemma write_yaml_ok_inv so obs t xml yaml cats sw lw w w' :
  write_yaml so obs t xml yaml cats sw lw w = (Ok tt, w') →
  ∃ iv lens write,
    np_unique (Instrument t) = [iv.1]
    ∧ setup_shape so iv.1 t (select obs) (catalog_list cats) sw lw iv.2
    ∧ all_param_lengths iv.2 = Some lens
    ∧ ¬ 1 < length (remove_dups lens)
    ∧ render iv.1 (select obs) iv.2 sw lw = Ok write
    ∧ fs w' = <[yaml := text write]> (fs w).
Proof.
  rewrite write_yaml_run.
  destruct (prepare so obs t xml cats sw lw w) as [[iv|e] w1] eqn:Ep; [|done].
  apply prepare_ok_inv in Ep as (Hfs & Hx & Hshape).
  intros ((lens & Hl & Hlen) & write & Hr & Hw)%finish_ok_inv.
  exists iv, lens, write. rewrite <-Hfs. done.
Qed.

(** The blocks of a rendering that succeeded. *)
Lemma render_ok_blocks so x t sel cats sw lw vars lens write :
  setup_shape so x t sel cats sw lw vars →
  all_param_lengths vars = Some lens →
  render x sel vars sw lw = Ok write →
  ∃ blocks, write = write_header ++ concat blocks
    ∧ ((x ∈ ["NIRCAM"; "WFSC"]
        ∧ Forall2 (dichroic_block sel (groups so t (ShortFilter t))
                     (groups so t (LongFilter t)) sw lw)
            (seq 0 (length (observations sel))) blocks)
       ∨ (x = "NIRISS"
          ∧ Forall2 (single_block sel (groups so t (PupilWheel t))
                       (broadcast cats (length (observations sel))))
              (seq 0 (length (observations sel))) blocks)).
Proof.
  intros [(Hx & (cs & cl & -> & -> & ->) & _)
         |[(Hnx & Hx & -> & _)|(_ & _ & ->)]] Hlens; [| |done].
  - unfold render. rewrite bool_decide_true by done.
    intros (blocks & Hb & ->)%render_dichroic_loop_inv.
    exists blocks. split; [done|]. by left.
  - unfold render. rewrite bool_decide_false by done.
    apply list_elem_of_singleton in Hx as ->.
    rewrite bool_decide_true by (by left).
    intros (blocks & Hb & ->)%render_single_loop_inv.
    exists blocks. split; [done|]. by right.
Qed.

Lemma remove_dups_order_ok : set_order_ok remove_dups.
Proof.
  intros l. split; [apply NoDup_remove_dups|apply elem_of_remove_dups].
Qed.

Ltac elem_tac := repeat (first [by left | right]).

(** ** Observation blocks and their numbers *)

Lemma zip_nonempty {A B} (l : list A) (k : list B) :
  l ≠ [] → k ≠ [] → zip l k ≠ [].
Proof. by destruct l, k. Qed.

(** The blocks of a conversion that completed, from the inputs alone. *)
Lemma completed_blocks so obs t xml yaml cats sw lw w w' x :
  set_order_ok so → x ∈ Instrument t →
  write_yaml so obs t xml yaml cats sw lw w = (Ok tt, w') →
  ∃ blocks,
    fs w' = <[yaml := text (write_header ++ concat blocks)]> (fs w)
    ∧ Forall2
        (λ i blk, ∃ pos o body,
           supported_positions obs !! i = Some pos ∧ obs !! pos = Some o
           ∧ block_body x t
               (broadcast (catalog_list cats)
                  (length (observations (select obs))))
               sw lw i pos body
           ∧ blk = obs_header (pos + 1) (obs_name (Label_text o)) ++ body)
        (seq 0 (length (observations (select obs)))) blocks.
Proof.
  intros Hso Hin
    (iv & lens & write & Hx & Hshape & Hlens & _ & Hr & Hfs)%write_yaml_ok_inv.
  destruct (render_ok_blocks _ _ _ _ _ _ _ _ _ _ Hshape Hlens Hr)
    as (blocks & -> & Hblocks).
  apply np_unique_single_inv in Hx as [_ Hx]. apply Hx in Hin as ->.
  exists blocks. split; [done|].
  destruct Hblocks as [[Hd Hb]|[Hn Hb]].
  - destruct Hshape as [(_ & (cs & cl & -> & -> & _) & Hwf)
                       |[(Hnd & _)|(Hnd & _)]]; [|done..].
    eapply Forall2_impl; [exact Hb|]. clear Hb.
    intros i blk
      (pos & name & fsw & flw & c1 & c2 & Hp & Hname & Hsw & Hlw & Hcat & ->).
    destruct (select_lookup obs i pos Hp) as (o & Ho & _ & _ & Hname').
    rewrite Hname' in Hname. injection Hname as <-.
    rewrite lookup_groups_order in Hsw, Hlw by done.
    case_decide as Hk; [|done]. injection Hsw as <-. injection Hlw as <-.
    destruct Hwf as [[Hs Hl]|Hnil]; last first.
    { destruct (Hso (ObservationID t)) as [_ Hiff]. apply Hiff in Hk.
      rewrite Hnil in Hk. by apply elem_of_nil in Hk. }
    destruct Hcat as [Hnil|[H1 H2]].
    { exfalso. revert Hnil.
      by apply zip_nonempty; apply rows_of_nonempty. }
    eexists pos, o, _. rewrite <-select_i_observations.
    split; [done|]. split; [done|]. split; [|done].
    left. split; [done|]. exists cs, cl, c1, c2.
    unfold getitem_opt, getitem in H1, H2.
    destruct (cs !! i); [|done]. destruct (cl !! i); [|done].
    by simplify_eq.
  - destruct Hshape as [(Hd & _)|[(_ & _ & _ & Hwf)|(_ & Hnn & _)]].
    { exfalso. revert Hd. rewrite Hn, !elem_of_cons, !elem_of_nil.
      intros [?|[?|[]]]; done. }
    2:{ destruct Hnn. rewrite Hn. by left. }
    eapply Forall2_impl; [exact Hb|]. clear Hb.
    intros i blk (pos & name & fl & cat & Hp & Hname & Hfl & Hcat & ->).
    destruct (select_lookup obs i pos Hp) as (o & Ho & _ & _ & Hname').
    rewrite Hname' in Hname. injection Hname as <-.
    rewrite lookup_groups_order in Hfl by done.
    case_decide as Hk; [|done]. injection Hfl as <-.
    destruct Hwf as [Hlen|Hnil]; last first.
    { destruct (Hso (ObservationID t)) as [_ Hiff]. apply Hiff in Hk.
      rewrite Hnil in Hk. by apply elem_of_nil in Hk. }
    destruct Hcat as [Hnil|Hcat].
    { exfalso. revert Hnil. by apply rows_of_nonempty. }
    eexists pos, o, _. rewrite <-select_i_observations.
    split; [done|]. split; [done|]. split; [|done].
    right. split; [done|]. by exists cat.
Qed.

(** C5: when the conversion completes, the file is the header comment
    followed by exactly one block per selected observation, in selection
    order, and nothing else. The [i]-th block opens with the line
    [Observation<p+1>:], where [p] is the position, in the unfiltered list,
    of the [i]-th observation of a supported instrument; then come the
    name, date and roll-angle lines and the filter entries of that
    observation, each fixed by the inputs. The numbers increase strictly. *)
Theorem observation_numbers so obs t xml yaml cats sw lw w w' x :
  set_order_ok so → x ∈ Instrument t →
  write_yaml so obs t xml yaml cats sw lw w = (Ok tt, w') →
  ∃ blocks,
    fs w' !! yaml
      = Some (String.concat EmptyString (write_header ++ concat blocks))
    ∧ length blocks = length (observations (select obs))
    ∧ length (supported_positions obs) = length (observations (select obs))
    ∧ Forall2
        (λ i blk, ∃ pos o body,
           supported_positions obs !! i = Some pos ∧ obs !! pos = Some o
           ∧ block_body x t
               (broadcast (catalog_list cats)
                  (length (observations (select obs))))
               sw lw i pos body
           ∧ blk = ("Observation" +:+ pretty (pos + 1) +:+ ":" +:+ LF)
                   :: ("  Name: '" +:+ obs_name (Label_text o) +:+ "'" +:+ LF)
                   :: ("  Date: " +:+ date +:+ LF)
                   :: ("  PAV3: " +:+ PAV3 +:+ LF)
                   :: body)
        (seq 0 (length (observations (select obs)))) blocks
    ∧ StronglySorted lt ((λ pos, pos + 1) <$> supported_positions obs).
Proof.
  intros Hso Hin Hrun.
  destruct (completed_blocks so obs t xml yaml cats sw lw w w' x Hso Hin Hrun)
    as (blocks & Hfs & Hb).
  destruct (select_lengths obs) as [Hli _].
  exists blocks. split_and!.
  - by rewrite Hfs, lookup_insert_eq.
  - apply Forall2_length in Hb. by rewrite length_seq in Hb.
  - by rewrite <-select_i_observations.
  - eapply Forall2_impl; [exact Hb|]. clear Hb.
    intros i blk (pos & o & body & Hp & Ho & Hbody & ->).
    by exists pos, o, body.
  - eapply StronglySorted_fmap; [|apply supported_positions_sorted].
    intros a b. lia.
Qed.

Lemma observation_numbers_witness :
  ∃ blocks,
    fs (write_yaml remove_dups ex_niriss_obs ex_niriss_table "in.xml"
          "out.yaml" (CatStr "stars.cat") None None w0).2 !! "out.yaml"
      = Some (String.concat EmptyString (write_header ++ concat blocks))
    ∧ length blocks = 3
    ∧ length (supported_positions ex_niriss_obs) = 3
    ∧ Forall2
        (λ i blk, ∃ pos o body,
           supported_positions ex_niriss_obs !! i = Some pos
           ∧ ex_niriss_obs !! pos = Some o
           ∧ block_body "NIRISS" ex_niriss_table
               (broadcast ["stars.cat"] 3) None None i pos body
           ∧ blk = ("Observation" +:+ pretty (pos + 1) +:+ ":" +:+ LF)
                   :: ("  Name: '" +:+ obs_name (Label_text o) +:+ "'" +:+ LF)
                   :: ("  Date: " +:+ date +:+ LF)
                   :: ("  PAV3: " +:+ PAV3 +:+ LF)
                   :: body)
        [0; 1; 2] blocks
    ∧ StronglySorted lt [1; 3; 4].
Proof.
  apply (observation_numbers remove_dups ex_niriss_obs ex_niriss_table
           "in.xml" "out.yaml" (CatStr "stars.cat") None None w0 _ "NIRISS").
  - apply remove_dups_order_ok.
  - by left.
  - by vm_compute.
Defined.

(** ** After the validation *)

Lemma validate_run_ok vars yaml w :
  (validate vars yaml w).1 = Ok tt →
  ∃ lens, all_param_lengths vars = Some lens
          ∧ ¬ 1 < length (remove_dups lens)
          ∧ logs (validate vars yaml) (Ok tt) [].
Proof.
  destruct (validate vars yaml w) as [r w'] eqn:E. simpl. intros ->.
  apply validate_ok_inv in E as [_ (lens & Hl & Hlen)].
  exists lens. split; [done|]. split; [done|]. by eapply validate_pass.
Qed.

Lemma elem_of_seq_0 i n : i ∈ seq 0 n ↔ i < n.
Proof. rewrite elem_of_seq. lia. Qed.

(** The loops stop at the first key that has no filter group. *)
Lemma render_single_loop_first sel filters cats l write :
  (∀ i, i ∈ l → i < length (i_observations sel)
                ∧ i < length (obs_names sel) ∧ i < length cats) →
  (∃ write', foldM (render_single sel filters cats) l write = Ok write'
             ∧ ∀ i, i ∈ l → is_Some (filters !! IdInt (Z.of_nat i)))
  ∨ (∃ pre i post,
       l = pre ++ i :: post
       ∧ (∀ j, j ∈ pre → is_Some (filters !! IdInt (Z.of_nat j)))
       ∧ filters !! IdInt (Z.of_nat i) = None
       ∧ foldM (render_single sel filters cats) l write
         = Raise (KeyError (IdInt (Z.of_nat i)))).
Proof.
  revert write. induction l as [|i l IH]; intros write Hb.
  { left. exists write. split; [done|]. intros i Hi.
    by apply elem_of_nil in Hi. }
  destruct (Hb i) as (H1 & H2 & H3); [by left|].
  rewrite foldM_cons.
  destruct (render_single_bounds sel filters cats i write H1 H2 H3)
    as [(w1 & -> & Hsome)|[-> Hnone]].
  - rewrite result_bind_ok.
    destruct (IH w1) as [(w2 & Hw2 & Hall)|(pre & j & post & -> & Hpre & Hj & Hr)].
    { intros j Hj. apply Hb. by right. }
    + left. exists w2. split; [done|].
      intros j [->|Hj]%elem_of_cons; [done|by apply Hall].
    + right. exists (i :: pre), j, post. split; [done|]. split; [|done].
      intros q [->|Hq]%elem_of_cons; [done|by apply Hpre].
  - right. exists [], i, l. split; [done|]. split; [|done].
    intros q Hq. by apply elem_of_nil in Hq.
Qed.

Lemma render_dichroic_loop_first sel swf lwf cs cl a (ps : list nat) write :
  (∀ j pos, ps !! j = Some pos →
            i_observations sel !! (a + j)%nat = Some pos) →
  (a + length ps ≤ length (obs_names sel))%nat →
  (a + length ps ≤ length cs)%nat → (a + length ps ≤ length cl)%nat →
  (∀ k, swf !! k = None ↔ lwf !! k = None) →
  (∃ write',
     foldM (render_dichroic sel swf lwf (Some cs) (Some cl))
       (seq a (length ps)) write = Ok write'
     ∧ ∀ pos, pos ∈ ps → is_Some (swf !! IdInt (Z.of_nat (pos + 1))))
  ∨ (∃ pre pos post,
       ps = pre ++ pos :: post
       ∧ (∀ q, q ∈ pre → is_Some (swf !! IdInt (Z.of_nat (q + 1))))
       ∧ swf !! IdInt (Z.of_nat (pos + 1)) = None
       ∧ foldM (render_dichroic sel swf lwf (Some cs) (Some cl))
           (seq a (length ps)) write
         = Raise (KeyError (IdInt (Z.of_nat (pos + 1))))).
Proof.
  intros Hps Hn Hcs Hcl Hdom. revert a write Hps Hn Hcs Hcl.
  induction ps as [|p ps IH]; intros a write Hps Hn Hcs Hcl.
  { left. exists write. split; [done|]. intros pos Hpos.
    by apply elem_of_nil in Hpos. }
  cbn [length seq] in *. rewrite foldM_cons.
  assert (i_observations sel !! a = Some p) as Hp.
  { rewrite <-(Nat.add_0_r a). by apply Hps. }
  destruct (render_dichroic_bounds sel swf lwf cs cl a p write Hp)
    as [(w1 & -> & Hsome)|[-> Hnone]]; [lia..|done| |].
  - rewrite result_bind_ok.
    destruct (IH (S a) w1)
      as [(w2 & Hw2 & Hall)|(pre & q & post & -> & Hpre & Hq & Hr)];
      [|lia..| |].
    { intros j pos Hj. replace (S a + j) with (a + S j) by lia.
      by apply Hps. }
    + left. exists w2. split; [done|].
      intros pos [->|Hpos]%elem_of_cons; [done|by apply Hall].
    + right. exists (p :: pre), q, post. split; [done|]. split; [|done].
      intros r [->|Hr']%elem_of_cons; [done|by apply Hpre].
  - right. exists [], p, ps. split; [done|]. split; [|done].
    intros r Hr. by apply elem_of_nil in Hr.
Qed.

(** C2, amended: once the validation has passed, every access by position
    (name, position index, catalog entry) succeeds, so the rendering never
    ends with an index error. Either every filter-group key ([obs_number] in
    the dichroic family, [i_obs] in the single-channel one) is an identifier
    of the table, and then the conversion completes and writes the rendered
    lines; or the rendering stops with [KeyError] at the first key, in
    rendering order, that is not an identifier of the table, every earlier
    key being one, and then nothing has been printed since the set-up and no
    file is written. *)
Theorem accesses_after_validation so obs t xml yaml cats sw lw w iv w1 :
  set_order_ok so →
  prepare so obs t xml cats sw lw w = (Ok iv, w1) →
  (validate iv.2 yaml w1).1 = Ok tt →
  ((∀ k, k ∈ render_keys iv.1 (select obs) → k ∈ ObservationID t)
   ∧ ∃ write,
       write_yaml so obs t xml yaml cats sw lw w
       = (Ok tt,
          {| stdout := stdout w1
               ++ [success_message (length (observations (select obs))) yaml];
             fs := <[yaml := text write]> (fs w) |}))
  ∨ (∃ pre k post,
       render_keys iv.1 (select obs) = pre ++ k :: post
       ∧ (∀ k', k' ∈ pre → k' ∈ ObservationID t)
       ∧ (k ∉ ObservationID t)
       ∧ write_yaml so obs t xml yaml cats sw lw w
         = (Raise (KeyError k), {| stdout := stdout w1; fs := fs w |})).
Proof.
  intros Hso Hp (lens & Hlens & Hone & Hv)%validate_run_ok.
  rewrite write_yaml_run, Hp, (finish_valid _ _ _ _ _ _ Hv).
  apply prepare_ok_inv in Hp as (Hfs & _ & Hshape). rewrite <-Hfs.
  destruct (select_lengths obs) as [Hli Hln].
  destruct iv as [x vars]. cbn [fst snd] in *.
  destruct Hshape as [(Hx & (cs & cl & -> & -> & ->) & _)
                     |[(Hnx & Hx & -> & _)|(_ & _ & ->)]]; [| |done].
  - injection Hlens as <-.
    assert (length cs = length (observations (select obs))) as Hcs
      by (apply (remove_dups_one _ _ _ Hone); elem_tac).
    assert (length cl = length (observations (select obs))) as Hcl
      by (apply (remove_dups_one _ _ _ Hone); elem_tac).
    unfold render, render_keys. rewrite !bool_decide_true by done.
    rewrite <-Hli.
    destruct (render_dichroic_loop_first (select obs)
                (groups so t (ShortFilter t)) (groups so t (LongFilter t))
                cs cl 0 (i_observations (select obs)) write_header)
      as [(write & -> & Hall)|(pre & pos & post & Hsplit & Hpre & Hnone & ->)];
      [done|simpl; lia..| | |].
    { intros k. apply groups_same_keys. }
    + left. split.
      * intros k (pos & -> & Hpos)%list_elem_of_fmap.
        destruct (Hall pos Hpos) as [fl Hfl].
        rewrite lookup_groups_order in Hfl by done. by case_decide.
      * exists write. by rewrite Hli.
    + right.
      exists ((λ q, IdInt (Z.of_nat (q + 1))) <$> pre),
        (IdInt (Z.of_nat (pos + 1))),
        ((λ q, IdInt (Z.of_nat (q + 1))) <$> post).
      split; [by rewrite Hsplit, fmap_app|]. split; [|split].
      * intros k (q & -> & Hq)%list_elem_of_fmap.
        destruct (Hpre q Hq) as [fl Hfl].
        rewrite lookup_groups_order in Hfl by done. by case_decide.
      * rewrite lookup_groups_order in Hnone by done. by case_decide.
      * by rewrite world_eta.
  - injection Hlens as <-.
    assert (length (broadcast (catalog_list cats)
                      (length (observations (select obs))))
            = length (observations (select obs))) as Hcs
      by (apply (remove_dups_one _ _ _ Hone); elem_tac).
    unfold render, render_keys. rewrite !bool_decide_false by done.
    apply list_elem_of_singleton in Hx as ->.
    rewrite bool_decide_true by (by left).
    destruct (render_single_loop_first (select obs)
                (groups so t (PupilWheel t))
                (broadcast (catalog_list cats)
                   (length (observations (select obs))))
                (seq 0 (length (observations (select obs)))) write_header)
      as [(write & -> & Hall)|(pre & i & post & Hsplit & Hpre & Hnone & ->)].
    { intros i Hi%elem_of_seq_0. lia. }
    + left. split.
      * intros k (i & -> & Hi)%list_elem_of_fmap.
        destruct (Hall i Hi) as [fl Hfl].
        rewrite lookup_groups_order in Hfl by done. by case_decide.
      * by exists write.
    + right.
      exists ((λ j, IdInt (Z.of_nat j)) <$> pre), (IdInt (Z.of_nat i)),
        ((λ j, IdInt (Z.of_nat j)) <$> post).
      split; [by rewrite Hsplit, fmap_app|]. split; [|split].
      * intros k (j & -> & Hj)%list_elem_of_fmap.
        destruct (Hpre j Hj) as [fl Hfl].
        rewrite lookup_groups_order in Hfl by done. by case_decide.
      * rewrite lookup_groups_order in Hnone by done. by case_decide.
      * by rewrite world_eta.
Qed.

Lemma accesses_after_validation_witness :
  ((∀ k, k ∈ render_keys "NIRISS" (select ex_niriss_obs) →
         k ∈ ObservationID ex_niriss_table_from1)
   ∧ ∃ write,
       write_yaml remove_dups ex_niriss_obs ex_niriss_table_from1 "in.xml"
         "out.yaml" (CatStr "stars.cat") None None w_used
       = (Ok tt,
          {| stdout :=
               stdout (prepare remove_dups ex_niriss_obs ex_niriss_table_from1
                         "in.xml" (CatStr "stars.cat") None None w_used).2
               ++ [success_message (length (observations (select ex_niriss_obs)))
                     "out.yaml"];
             fs := <["out.yaml" := text write]> (fs w_used) |}))
  ∨ (∃ pre k post,
       render_keys "NIRISS" (select ex_niriss_obs) = pre ++ k :: post
       ∧ (∀ k', k' ∈ pre → k' ∈ ObservationID ex_niriss_table_from1)
       ∧ (k ∉ ObservationID ex_niriss_table_from1)
       ∧ write_yaml remove_dups ex_niriss_obs ex_niriss_table_from1 "in.xml"
           "out.yaml" (CatStr "stars.cat") None None w_used
         = (Raise (KeyError k),
            {| stdout :=
                 stdout (prepare remove_dups ex_niriss_obs
                           ex_niriss_table_from1 "in.xml" (CatStr "stars.cat")
                           None None w_used).2;
               fs := fs w_used |})).
Proof.
  eapply (accesses_after_validation remove_dups ex_niriss_obs
            ex_niriss_table_from1 "in.xml" "out.yaml" (CatStr "stars.cat")
            None None w_used ("NIRISS", _)
            (prepare remove_dups ex_niriss_obs ex_niriss_table_from1 "in.xml"
               (CatStr "stars.cat") None None w_used).2).
  - apply remove_dups_order_ok.
  - reflexivity.
  - reflexivity.
Defined.

(** C2, as stated, fails: with identifiers numbered from 1 the five lengths
    are all 3 and the validation passes, yet the first turn of the
    single-channel loop looks up key 0 and raises [KeyError]. *)
Lemma accesses_after_validation_fail :
  ∃ iv w1,
    prepare remove_dups ex_niriss_obs ex_niriss_table_from1 "in.xml"
      (CatStr "stars.cat") None None w0 = (Ok iv, w1)
    ∧ all_param_lengths iv.2 = Some [3; 3; 3; 3; 3]
    ∧ validate iv.2 "out.yaml" w1 = (Ok tt, w1)
    ∧ write_yaml remove_dups ex_niriss_obs ex_niriss_table_from1 "in.xml"
        "out.yaml" (CatStr "stars.cat") None None w0
      = (Raise (KeyError (IdInt 0)), w1).
Proof. eexists _, _. split_and!; by vm_compute. Qed.

(** ** The single-channel conversion, end to end *)

Lemma remove_dups_all_eq {A} `{EqDecision A} (n : A) (l : list A) :
  (∀ a, a ∈ l → a = n) → ¬ 1 < length (remove_dups l).
Proof.
  intros Hall Hlen.
  pose proof (NoDup_remove_dups l) as Hnd.
  destruct (remove_dups l) as [|a [|b r]] eqn:E; simpl in Hlen; [lia..|].
  assert (a = n) as ->.
  { apply Hall, elem_of_remove_dups. rewrite E. by left. }
  assert (b = n) as ->.
  { apply Hall, elem_of_remove_dups. rewrite E. right. by left. }
  apply NoDup_cons in Hnd as [Hnd _]. destruct Hnd. by left.
Qed.

Lemma setup_single_logs so t sel cats sw lw :
  length (PupilWheel t) = length (ObservationID t) →
  logs (setup so "NIRISS" t sel cats sw lw)
    (Ok (SingleVars (groups so t (PupilWheel t))
           (broadcast cats (length (observations sel)))
           [length (broadcast cats (length (observations sel)));
            size (groups so t (PupilWheel t));
            length (observations sel); length (i_observations sel);
            length (obs_names sel)]))
    (notices (λ k, rows_of k (ObservationID t) (PupilWheel t))
       (so (ObservationID t))).
Proof.
  intros Hlen. unfold setup.
  rewrite bool_decide_false, bool_decide_true; [|by left|].
  - eapply logs_bind_quiet; [by apply aggregate_single_logs|apply logs_ret].
  - rewrite !elem_of_cons, elem_of_nil. intros [?|[?|[]]]; done.
Qed.

Lemma setup_dichroic_logs so x t sel cats cs cl :
  x ∈ ["NIRCAM"; "WFSC"] →
  length (ShortFilter t) = length (ObservationID t) →
  length (LongFilter t) = length (ObservationID t) →
  logs (setup so x t sel cats (Some cs) (Some cl))
    (Ok (DichroicVars (groups so t (ShortFilter t))
           (groups so t (LongFilter t))
           [length cs; length cl; size (groups so t (ShortFilter t));
            size (groups so t (LongFilter t));
            length (observations sel); length (i_observations sel);
            length (obs_names sel)]))
    (notices (λ k, rows_of k (ObservationID t) (ShortFilter t))
       (so (ObservationID t))).
Proof.
  intros Hx Hs Hl. unfold setup. rewrite bool_decide_true by done.
  eapply logs_bind_quiet; [by apply aggregate_dichroic_logs|].
  apply logs_bind_lift, logs_bind_lift, logs_ret.
Qed.




(** ** The cardinality error *)




(** ** One catalog for all observations *)

Lemma niriss_run_ok so obs t xml yaml cats sw lw w :
  set_order_ok so →
  Instrument t ≠ [] → (∀ y, y ∈ Instrument t → y = "NIRISS") →
  length (PupilWheel t) = length (ObservationID t) →
  length (broadcast (catalog_list cats) (length (observations (select obs))))
    = length (observations (select obs)) →
  length (remove_dups (ObservationID t)) = length (observations (select obs)) →
  (∀ i, i < length (observations (select obs)) →
        IdInt (Z.of_nat i) ∈ ObservationID t) →
  ∃ write,
    write_yaml so obs t xml yaml cats sw lw w =
      (Ok tt,
       {| stdout := stdout w
            ++ summary_lines xml t
            ++ notices (λ k, rows_of k (ObservationID t) (PupilWheel t))
                 (so (ObservationID t))
            ++ [success_message (length (observations (select obs))) yaml];
          fs := <[yaml := text write]> (fs w) |}).
Proof.
  intros Hso Hne Hall Hlen Hcats Hids Hkeys.
  destruct (select_lengths obs) as [Hli Hln].
  rewrite write_yaml_run.
  rewrite (prepare_logs_ok so obs t xml cats sw lw "NIRISS" _ _
             (np_unique_single _ _ Hne Hall)
             (setup_single_logs so t _ _ sw lw Hlen)).
  rewrite finish_valid; last first.
  { eapply validate_pass; [done|].
    apply (remove_dups_all_eq (length (observations (select obs)))).
    intros a. rewrite size_groups_order, Hcats, Hids, Hli, Hln by done.
    rewrite !elem_of_cons, elem_of_nil.
    intros [?|[?|[?|[?|[?|[]]]]]]; done. }
  cbn [fst snd]. unfold render.
  rewrite bool_decide_false, bool_decide_true; [|by left|]; last first.
  { rewrite !elem_of_cons, elem_of_nil. intros [?|[?|[]]]; done. }
  destruct (render_single_loop_bounds (select obs)
              (groups so t (PupilWheel t))
              (broadcast (catalog_list cats)
                 (length (observations (select obs))))
              (seq 0 (length (observations (select obs)))) write_header)
    as [(write & -> & _)|(i & Hi & Hnone & _)].
  { intros i Hi%elem_of_seq_0. lia. }
  2:{ rewrite lookup_groups_order in Hnone by done.
      rewrite decide_True in Hnone; [done|]. by apply Hkeys, elem_of_seq_0. }
  exists write. cbn [stdout fs]. unfold success_message.
  by rewrite <-!app_assoc.
Qed.

Lemma catalog_lines_app (l k : list string) :
  catalog_lines (l ++ k) = catalog_lines l ++ catalog_lines k.
Proof. apply List.filter_app. Qed.

Lemma catalog_lines_obs_header n name : catalog_lines (obs_header n name) = [].
Proof. reflexivity. Qed.

Lemma catalog_lines_filter_block f c :
  catalog_lines (filter_block f c) = ["  PointSourceCatalog: " +:+ c +:+ LF].
Proof.
  unfold catalog_lines, filter_block. cbn [List.filter].
  rewrite (prefix_app_same "  PointSourceCatalog: "). reflexivity.
Qed.

Lemma catalog_lines_single_body fl c :
  catalog_lines (single_body fl c)
  = replicate (length fl) ("  PointSourceCatalog: " +:+ c +:+ LF).
Proof.
  unfold single_body. induction fl as [|f fl IH]; [done|].
  rewrite fmap_cons. cbn [concat length replicate].
  by rewrite catalog_lines_app, catalog_lines_filter_block, IH.
Qed.

(** C8, amended: for a NIRISS proposal with one catalog path [c] (a string
    or a list of one), table columns of the same length, as many distinct
    identifiers as the [N] selected observations and every index
    [0 .. N-1] among the identifiers, the catalog list becomes [c] repeated
    [N] times, the conversion completes, and the file holds the header
    comment and [N] blocks. The block of the [i]-th selected observation is
    its header followed by one filter entry per exposure row of identifier
    [i], at least one, and its catalog lines are the line
    [PointSourceCatalog: c], once per entry. *)
Theorem single_catalog_broadcast so obs t xml yaml cats sw lw w c :
  set_order_ok so →
  Instrument t ≠ [] → (∀ y, y ∈ Instrument t → y = "NIRISS") →
  length (PupilWheel t) = length (ObservationID t) →
  catalog_list cats = [c] →
  length (remove_dups (ObservationID t)) = length (observations (select obs)) →
  (∀ i, i < length (observations (select obs)) →
        IdInt (Z.of_nat i) ∈ ObservationID t) →
  broadcast (catalog_list cats) (length (observations (select obs)))
    = replicate (length (observations (select obs))) c
  ∧ ∃ blocks w',
      write_yaml so obs t xml yaml cats sw lw w = (Ok tt, w')
      ∧ fs w' !! yaml
        = Some (String.concat EmptyString (write_header ++ concat blocks))
      ∧ length blocks = length (observations (select obs))
      ∧ Forall2
          (λ i blk, ∃ pos o,
             supported_positions obs !! i = Some pos ∧ obs !! pos = Some o
             ∧ blk = obs_header (pos + 1) (obs_name (Label_text o))
                     ++ single_body
                          (rows_of (IdInt (Z.of_nat i)) (ObservationID t)
                             (PupilWheel t)) c
             ∧ rows_of (IdInt (Z.of_nat i)) (ObservationID t) (PupilWheel t)
               ≠ []
             ∧ catalog_lines blk
               = replicate
                   (length (rows_of (IdInt (Z.of_nat i)) (ObservationID t)
                              (PupilWheel t)))
                   ("  PointSourceCatalog: " +:+ c +:+ LF))
          (seq 0 (length (observations (select obs)))) blocks.
Proof.
  intros Hso Hne Hall Hlen Hc Hids Hkeys.
  assert (broadcast (catalog_list cats) (length (observations (select obs)))
          = replicate (length (observations (select obs))) c) as Hbc
    by (rewrite Hc; apply broadcast_single).
  split; [done|].
  destruct (niriss_run_ok so obs t xml yaml cats sw lw w Hso Hne Hall Hlen)
    as [write Hrun]; [by rewrite Hbc, length_replicate|done..|].
  assert ("NIRISS" ∈ Instrument t) as Hin.
  { destruct (Instrument t) as [|y l] eqn:E; [done|].
    rewrite <-(Hall y) at 1; by left. }
  destruct (completed_blocks so obs t xml yaml cats sw lw w _ "NIRISS"
              Hso Hin Hrun) as (blocks & Hfs & Hb).
  eexists blocks, _. split; [exact Hrun|]. split_and!.
  - rewrite Hfs. by rewrite lookup_insert_eq.
  - apply Forall2_length in Hb. by rewrite length_seq in Hb.
  - eapply Forall2_impl; [exact Hb|]. clear Hb.
    intros i blk (pos & o & body & Hp & Ho & Hbody & ->).
    destruct Hbody as [[Hd _]|(_ & cat & Hcat & ->)].
    { exfalso. revert Hd. rewrite !elem_of_cons, elem_of_nil.
      intros [?|[?|[]]]; done. }
    rewrite Hbc in Hcat. apply lookup_replicate in Hcat as [-> Hi].
    exists pos, o. split_and!; [done..| |].
    + apply rows_of_nonempty; [by apply Hkeys|done].
    + by rewrite catalog_lines_app, catalog_lines_obs_header,
        catalog_lines_single_body.
Qed.

Lemma single_catalog_broadcast_witness :
  broadcast (catalog_list (CatStr "stars.cat"))
    (length (observations (select ex_niriss_obs)))
    = replicate (length (observations (select ex_niriss_obs))) "stars.cat"
  ∧ ∃ blocks w',
      write_yaml remove_dups ex_niriss_obs ex_niriss_table "in.xml"
        "out.yaml" (CatStr "stars.cat") None None w0 = (Ok tt, w')
      ∧ fs w' !! "out.yaml"
        = Some (String.concat EmptyString (write_header ++ concat blocks))
      ∧ length blocks = length (observations (select ex_niriss_obs))
      ∧ Forall2
          (λ i blk, ∃ pos o,
             supported_positions ex_niriss_obs !! i = Some pos
             ∧ ex_niriss_obs !! pos = Some o
             ∧ blk = obs_header (pos + 1) (obs_name (Label_text o))
                     ++ single_body
                          (rows_of (IdInt (Z.of_nat i))
                             (ObservationID ex_niriss_table)
                             (PupilWheel ex_niriss_table)) "stars.cat"
             ∧ rows_of (IdInt (Z.of_nat i)) (ObservationID ex_niriss_table)
                 (PupilWheel ex_niriss_table) ≠ []
             ∧ catalog_lines blk
               = replicate
                   (length (rows_of (IdInt (Z.of_nat i))
                              (ObservationID ex_niriss_table)
                              (PupilWheel ex_niriss_table)))
                   ("  PointSourceCatalog: " +:+ "stars.cat" +:+ LF))
          (seq 0 (length (observations (select ex_niriss_obs)))) blocks.
Proof.
  apply (single_catalog_broadcast remove_dups ex_niriss_obs ex_niriss_table
           "in.xml" "out.yaml" (CatStr "stars.cat") None None w0 "stars.cat").
  - apply remove_dups_order_ok.
  - done.
  - intros y Hy. repeat (apply elem_of_cons in Hy as [->|Hy]; [done|]).
    by apply elem_of_nil in Hy.
  - reflexivity.
  - reflexivity.
  - reflexivity.
  - intros i Hi. change (i < 3) in Hi.
    destruct i as [|[|[|i]]]; [elem_tac..|lia].
Defined.

(** C8, as stated, fails. With one catalog and three selected NIRISS
    observations whose table has exposures for two identifiers only, the
    validation stops the run and no block is rendered; and an FGS proposal
    with one catalog stops at line 171, where [all_param_lengths] is
    unbound. Neither writes a file. *)
Lemma single_catalog_not_rendered :
  (catalog_list (CatStr "stars.cat") = ["stars.cat"]
   ∧ length (observations (select ex_niriss_obs)) = 3
   ∧ write_yaml remove_dups ex_niriss_obs ex_niriss_table_two "in.xml"
       "out.yaml" (CatStr "stars.cat") None None w0
     = (Raise (ValueError (cardinality_message "out.yaml")),
        {| stdout := summary_lines "in.xml" ex_niriss_table_two
             ++ [note (IdInt 0); note (IdInt 1); "[3, 2, 3, 3, 3]"];
           fs := ∅ |}))
  ∧ (catalog_list (CatList ["stars.cat"]) = ["stars.cat"]
     ∧ length (observations (select ex_fgs_obs)) = 1
     ∧ write_yaml remove_dups ex_fgs_obs ex_fgs_table "in.xml" "out.yaml"
         (CatList ["stars.cat"]) None None w0
       = (Raise (UnboundLocalError "all_param_lengths"),
          {| stdout := summary_lines "in.xml" ex_fgs_table; fs := ∅ |})).
Proof. split_and!; by vm_compute. Qed.

(** ** Independence from the iteration order and from the initial state *)

Lemma logs_bind_same {A B} (c1 c2 : M A) (f : A → M B) ra o1 o2 r1 out1 r2 out2 :
  logs c1 ra o1 → logs c2 ra o2 → (∀ a, ∃ r o, logs (f a) r o) →
  logs (c1 ≫= f) r1 out1 → logs (c2 ≫= f) r2 out2 → r1 = r2.
Proof.
  intros H1 H2 Hf Hb1 Hb2. destruct ra as [a|e].
  - destruct (Hf a) as (r & o & Hfa).
    destruct (logs_det _ _ _ _ _ Hb1 (logs_bind _ _ _ _ _ _ H1 Hfa)) as [-> _].
    by destruct (logs_det _ _ _ _ _ Hb2 (logs_bind _ _ _ _ _ _ H2 Hfa))
      as [-> _].
  - destruct (logs_det _ _ _ _ _ Hb1 (logs_bind_raise _ f _ _ H1)) as [-> _].
    by destruct (logs_det _ _ _ _ _ Hb2 (logs_bind_raise _ f _ _ H2))
      as [-> _].
Qed.

Lemma set_order_nil so (l : list obs_id) :
  set_order_ok so → so l = [] ↔ l = [].
Proof.
  intros Hso. destruct (Hso l) as [_ Hin]. split.
  - intros Hnil. destruct l as [|x l]; [done|].
    assert (x ∈ so (x :: l)) as Hx by (apply Hin; by left).
    rewrite Hnil in Hx. by apply elem_of_nil in Hx.
  - intros ->. destruct (so []) as [|x r]; [done|].
    assert (x ∈ []) as Hx by (apply Hin; by left).
    by apply elem_of_nil in Hx.
Qed.

Lemma groups_order so1 so2 t col :
  set_order_ok so1 → set_order_ok so2 → groups so1 t col = groups so2 t col.
Proof.
  intros H1 H2. unfold groups.
  by rewrite (insert_groups_order so1), (insert_groups_order so2).
Qed.

Lemma aggregate_single_order so1 so2 t r1 o1 r2 o2 :
  set_order_ok so1 → set_order_ok so2 →
  logs (aggregate_single so1 t) r1 o1 → logs (aggregate_single so2 t) r2 o2 →
  r1 = r2.
Proof.
  intros Hso1 Hso2 H1 H2.
  destruct (aggregate_single_total so1 t) as (ra & oa & Ha & Hoka & Hra).
  destruct (aggregate_single_total so2 t) as (rb & ob & Hb & Hokb & Hrb).
  destruct (logs_det _ _ _ _ _ H1 Ha) as [-> _].
  destruct (logs_det _ _ _ _ _ H2 Hb) as [-> _].
  destruct ra as [da|ea], rb as [db|eb].
  - destruct (Hoka _ eq_refl) as [-> _]. destruct (Hokb _ eq_refl) as [-> _].
    f_equal. by apply groups_order.
  - destruct (Hoka _ eq_refl) as [_ Hwf].
    destruct (Hrb _ eq_refl) as (_ & Hne & Hlen).
    destruct Hwf as [|Hnil]; [done|].
    apply set_order_nil in Hnil; [|done]. destruct Hne.
    by apply set_order_nil.
  - destruct (Hokb _ eq_refl) as [_ Hwf].
    destruct (Hra _ eq_refl) as (_ & Hne & Hlen).
    destruct Hwf as [|Hnil]; [done|].
    apply set_order_nil in Hnil; [|done]. destruct Hne.
    by apply set_order_nil.
  - destruct (Hra _ eq_refl) as [-> _]. by destruct (Hrb _ eq_refl) as [-> _].
Qed.

Lemma aggregate_dichroic_order so1 so2 t r1 o1 r2 o2 :
  set_order_ok so1 → set_order_ok so2 →
  logs (aggregate_dichroic so1 t) r1 o1 →
  logs (aggregate_dichroic so2 t) r2 o2 →
  r1 = r2.
Proof.
  intros Hso1 Hso2 H1 H2.
  destruct (aggregate_dichroic_total so1 t) as (ra & oa & Ha & Hoka & Hra).
  destruct (aggregate_dichroic_total so2 t) as (rb & ob & Hb & Hokb & Hrb).
  destruct (logs_det _ _ _ _ _ H1 Ha) as [-> _].
  destruct (logs_det _ _ _ _ _ H2 Hb) as [-> _].
  destruct ra as [da|ea], rb as [db|eb].
  - destruct (Hoka _ eq_refl) as [-> _]. destruct (Hokb _ eq_refl) as [-> _].
    f_equal. f_equal; by apply groups_order.
  - destruct (Hoka _ eq_refl) as [_ Hwf].
    destruct (Hrb _ eq_refl) as (_ & Hne & Hlen).
    destruct Hwf as [|Hnil]; [done|].
    apply set_order_nil in Hnil; [|done]. destruct Hne.
    by apply set_order_nil.
  - destruct (Hokb _ eq_refl) as [_ Hwf].
    destruct (Hra _ eq_refl) as (_ & Hne & Hlen).
    destruct Hwf as [|Hnil]; [done|].
    apply set_order_nil in Hnil; [|done]. destruct Hne.
    by apply set_order_nil.
  - destruct (Hra _ eq_refl) as [-> _]. by destruct (Hrb _ eq_refl) as [-> _].
Qed.

Lemma setup_order so1 so2 x t sel cats sw lw r1 o1 r2 o2 :
  set_order_ok so1 → set_order_ok so2 →
  logs (setup so1 x t sel cats sw lw) r1 o1 →
  logs (setup so2 x t sel cats sw lw) r2 o2 →
  r1 = r2.
Proof.
  intros Hso1 Hso2. unfold setup. case_bool_decide; [|case_bool_decide].
  - destruct (aggregate_dichroic_total so1 t) as (ra & oa & Ha & _).
    destruct (aggregate_dichroic_total so2 t) as (rb & ob & Hb & _).
    rewrite (aggregate_dichroic_order _ _ _ _ _ _ _ Hso2 Hso1 Hb Ha) in Hb.
    apply (logs_bind_same _ _ _ _ _ _ _ _ _ _ Ha Hb). intros d.
    destruct sw as [l1|]; [destruct lw as [l2|]|]; eexists _, _.
    + apply logs_bind_lift, logs_bind_lift, logs_ret.
    + apply logs_bind_lift, logs_bind_raise, logs_lift.
    + apply logs_bind_raise, logs_lift.
  - destruct (aggregate_single_total so1 t) as (ra & oa & Ha & _).
    destruct (aggregate_single_total so2 t) as (rb & ob & Hb & _).
    rewrite (aggregate_single_order _ _ _ _ _ _ _ Hso2 Hso1 Hb Ha) in Hb.
    apply (logs_bind_same _ _ _ _ _ _ _ _ _ _ Ha Hb). intros d.
    eexists _, _. apply logs_ret.
  - intros H1 H2. by destruct (logs_det _ _ _ _ _ H1 H2).
Qed.

Lemma prepare_order so1 so2 obs t xml cats sw lw r1 o1 r2 o2 :
  set_order_ok so1 → set_order_ok so2 →
  logs (prepare so1 obs t xml cats sw lw) r1 o1 →
  logs (prepare so2 obs t xml cats sw lw) r2 o2 →
  r1 = r2.
Proof.
  intros Hso1 Hso2 H1 H2.
  destruct (np_unique (Instrument t)) as [|x [|y u]] eqn:Eu.
  - pose proof (prepare_logs_empty so1 obs t xml cats sw lw Eu) as Ha.
    pose proof (prepare_logs_empty so2 obs t xml cats sw lw Eu) as Hb.
    destruct (logs_det _ _ _ _ _ H1 Ha) as [-> _].
    by destruct (logs_det _ _ _ _ _ H2 Hb) as [-> _].
  - destruct (setup_total so1 x t (select obs) (catalog_list cats) sw lw)
      as (ra & oa & Ha & _).
    destruct (setup_total so2 x t (select obs) (catalog_list cats) sw lw)
      as (rb & ob & Hb & _).
    rewrite (setup_order _ _ _ _ _ _ _ _ _ _ _ _ Hso2 Hso1 Hb Ha) in Hb.
    destruct ra as [vars|e].
    + pose proof (prepare_logs_ok _ obs _ xml _ _ _ _ _ _ Eu Ha) as Ha'.
      pose proof (prepare_logs_ok _ obs _ xml _ _ _ _ _ _ Eu Hb) as Hb'.
      destruct (logs_det _ _ _ _ _ H1 Ha') as [-> _].
      by destruct (logs_det _ _ _ _ _ H2 Hb') as [-> _].
    + pose proof (prepare_logs_raise _ obs _ xml _ _ _ _ _ _ Eu Ha) as Ha'.
      pose proof (prepare_logs_raise _ obs _ xml _ _ _ _ _ _ Eu Hb) as Hb'.
      destruct (logs_det _ _ _ _ _ H1 Ha') as [-> _].
      by destruct (logs_det _ _ _ _ _ H2 Hb') as [-> _].
  - assert (1 < length (np_unique (Instrument t))) as Hlen
      by (rewrite Eu; simpl; lia).
    pose proof (prepare_logs_mixed so1 obs t xml cats sw lw Hlen) as Ha.
    pose proof (prepare_logs_mixed so2 obs t xml cats sw lw Hlen) as Hb.
    destruct (logs_det _ _ _ _ _ H1 Ha) as [-> _].
    by destruct (logs_det _ _ _ _ _ H2 Hb) as [-> _].
Qed.

(** The outcome of the second half, and the file it writes, do not depend on
    the state it starts from. *)
Lemma finish_run obs yaml sw lw iv w :
  ∃ rv ov, logs (validate iv.2 yaml) rv ov
    ∧ finish obs yaml sw lw iv w =
      match rv with
      | Raise e => (Raise e, {| stdout := stdout w ++ ov; fs := fs w |})
      | Ok _ =>
          match render iv.1 (select obs) iv.2 sw lw with
          | Ok write =>
              (Ok tt,
               {| stdout := stdout w ++
                    [LF +:+ "Successfully wrote "
                       +:+ pretty (length (observations (select obs)))
                       +:+ " observations to " +:+ yaml];
                  fs := <[yaml := text write]> (fs w) |})
          | Raise e => (Raise e, w)
          end
      end.
Proof.
  destruct (validate iv.2 yaml w) as [[[]|e] w'] eqn:Ev.
  - apply validate_ok_inv in Ev as [_ (lens & Hl & Hlen)].
    pose proof (validate_pass _ _ yaml Hl Hlen) as Hv.
    exists (Ok tt), []. split; [done|]. by apply finish_valid.
  - assert (∃ ov, logs (validate iv.2 yaml) (Raise e) ov) as [ov Hv].
    { destruct iv as [x [d1 d2 lens|d c lens|]]; cbn [snd validate] in *.
      - case_bool_decide; [|done]. injection Ev as <- _.
        exists [str_list lens].
        apply (logs_bind_quiet _ _ tt); [apply logs_print|apply logs_lift].
      - case_bool_decide; [|done]. injection Ev as <- _.
        exists [str_list lens].
        apply (logs_bind_quiet _ _ tt); [apply logs_print|apply logs_lift].
      - injection Ev as <- _. exists []. apply logs_lift. }
    exists (Raise e), ov. split; [done|]. by apply finish_invalid.
Qed.

(** C9: the outcome of the conversion (completion, or the exception raised)
    and, on completion, the text of the output file are the same for any two
    runs on the same inputs, whatever the order in which the identifier set
    is iterated and whatever the state (earlier output, earlier content of
    the file) each run starts from. *)
Theorem conversion_deterministic so1 so2 obs t xml yaml cats sw lw w1 w2 :
  set_order_ok so1 → set_order_ok so2 →
  (write_yaml so1 obs t xml yaml cats sw lw w1).1
  = (write_yaml so2 obs t xml yaml cats sw lw w2).1
  ∧ ((write_yaml so1 obs t xml yaml cats sw lw w1).1 = Ok tt →
     ∃ text,
       fs (write_yaml so1 obs t xml yaml cats sw lw w1).2 !! yaml = Some text
       ∧ fs (write_yaml so2 obs t xml yaml cats sw lw w2).2 !! yaml = Some text).
Proof.
  intros Hso1 Hso2.
  destruct (prepare_total so1 obs t xml cats sw lw) as (r1 & o1 & H1 & _).
  destruct (prepare_total so2 obs t xml cats sw lw) as (r2 & o2 & H2 & _).
  rewrite (prepare_order _ _ _ _ _ _ _ _ _ _ _ _ Hso2 Hso1 H2 H1) in H2.
  pose proof (write_yaml_run so1 obs t xml yaml cats sw lw w1) as E1.
  pose proof (write_yaml_run so2 obs t xml yaml cats sw lw w2) as E2.
  rewrite H1 in E1. rewrite H2 in E2.
  destruct (write_yaml so1 obs t xml yaml cats sw lw w1) as [ra wa].
  destruct (write_yaml so2 obs t xml yaml cats sw lw w2) as [rb wb].
  destruct r1 as [iv|e]; [|by simplify_eq/=].
  destruct (finish_run obs yaml sw lw iv
              {| stdout := stdout w1 ++ o1; fs := fs w1 |})
    as (rv & ov & Hv & E1').
  destruct (finish_run obs yaml sw lw iv
              {| stdout := stdout w2 ++ o2; fs := fs w2 |})
    as (rv' & ov' & Hv' & E2').
  destruct (logs_det _ _ _ _ _ Hv' Hv) as [-> _].
  rewrite E1' in E1. rewrite E2' in E2. clear E1' E2'.
  destruct rv as [[]|e]; [|by simplify_eq/=].
  destruct (render iv.1 (select obs) iv.2 sw lw) as [write|e];
    [|by simplify_eq/=].
  simplify_eq/=. split; [done|]. intros _. exists (text write).
  by rewrite !lookup_insert_eq.
Qed.

Lemma reversed_order_ok : set_order_ok reversed_order.
Proof.
  intros l. unfold reversed_order. split.
  - rewrite reverse_Permutation. apply NoDup_remove_dups.
  - intros x. by rewrite elem_of_reverse, elem_of_remove_dups.
Qed.

Lemma conversion_deterministic_witness :
  (write_yaml remove_dups ex_niriss_obs ex_niriss_table "in.xml" "out.yaml"
     (CatStr "stars.cat") None None w0).1
  = (write_yaml reversed_order ex_niriss_obs ex_niriss_table "in.xml"
       "out.yaml" (CatStr "stars.cat") None None w_used).1
  ∧ ((write_yaml remove_dups ex_niriss_obs ex_niriss_table "in.xml" "out.yaml"
        (CatStr "stars.cat") None None w0).1 = Ok tt →
     ∃ text,
       fs (write_yaml remove_dups ex_niriss_obs ex_niriss_table "in.xml"
             "out.yaml" (CatStr "stars.cat") None None w0).2 !! "out.yaml"
         = Some text
       ∧ fs (write_yaml reversed_order ex_niriss_obs ex_niriss_table "in.xml"
               "out.yaml" (CatStr "stars.cat") None None w_used).2 !! "out.yaml"
           = Some text).
Proof.
  apply (conversion_deterministic remove_dups reversed_order ex_niriss_obs
           ex_niriss_table "in.xml" "out.yaml" (CatStr "stars.cat") None None
           w0 w_used).
  - apply remove_dups_order_ok.
  - apply reversed_order_ok.
Defined.

(** ** Notices of the grouping *)

Lemma non_uniform_iff (l : list string) :
  1 < length (remove_dups l) ↔ non_uniform l.
Proof.
  split.
  - intros Hlen. pose proof (NoDup_remove_dups l) as Hnd.
    destruct (remove_dups l) as [|a [|b r]] eqn:E; simpl in Hlen; [lia..|].
    exists a, b. split_and!.
    + apply elem_of_remove_dups. rewrite E. by left.
    + apply elem_of_remove_dups. rewrite E. right. by left.
    + intros ->. apply NoDup_cons in Hnd as [Hnd _]. destruct Hnd. by left.
  - intros (a & b & Ha & Hb & Hab). by apply (remove_dups_two a b).
Qed.

Lemma elem_of_notices so ids (col : list string) line :
  set_order_ok so →
  line ∈ notices (λ k, rows_of k ids col) (so ids)
  ↔ ∃ k, k ∈ ids ∧ non_uniform (rows_of k ids col) ∧ line = note k.
Proof.
  intros Hso. destruct (Hso ids) as [_ Hin]. unfold notices.
  rewrite list_elem_of_fmap. split.
  - intros (k & -> & Hk). apply list_elem_of_filter in Hk as [Hnu Hk].
    exists k. split; [by apply Hin|]. split; [by apply non_uniform_iff|done].
  - intros (k & Hk & Hnu & ->). exists k. split; [done|].
    apply list_elem_of_filter. split; [by apply non_uniform_iff|by apply Hin].
Qed.

Lemma setup_out_dichroic so x t sel cats sw lw :
  x ∈ ["NIRCAM"; "WFSC"] →
  length (ShortFilter t) = length (ObservationID t) →
  length (LongFilter t) = length (ObservationID t) →
  ∃ r, logs (setup so x t sel cats sw lw) r
         (notices (λ k, rows_of k (ObservationID t) (ShortFilter t))
            (so (ObservationID t))).
Proof.
  intros Hx Hs Hl. unfold setup. rewrite bool_decide_true by done.
  pose proof (aggregate_dichroic_logs so t Hs Hl) as Ha.
  destruct sw as [l1|]; [destruct lw as [l2|]|]; eexists.
  - eapply logs_bind_quiet; [done|].
    apply logs_bind_lift, logs_bind_lift, logs_ret.
  - eapply logs_bind_quiet; [done|].
    apply logs_bind_lift, logs_bind_raise, logs_lift.
  - eapply logs_bind_quiet; [done|]. apply logs_bind_raise, logs_lift.
Qed.

Lemma prepare_out so obs t xml cats sw lw x r out :
  np_unique (Instrument t) = [x] →
  logs (setup so x t (select obs) (catalog_list cats) sw lw) r out →
  ∃ r', logs (prepare so obs t xml cats sw lw) r' (summary_lines xml t ++ out).
Proof.
  intros Hx Hs. destruct r as [vars|e]; eexists.
  - by eapply prepare_logs_ok.
  - by eapply prepare_logs_raise.
Qed.

(** Whatever [prepare] printed is still in the output when the run ends. *)
Lemma write_yaml_stdout so obs t xml yaml cats sw lw r out w :
  logs (prepare so obs t xml cats sw lw) r out →
  ∃ post, stdout (write_yaml so obs t xml yaml cats sw lw w).2
          = stdout w ++ out ++ post.
Proof.
  intros H. rewrite write_yaml_run, H. destruct r as [iv|e].
  - destruct (finish_run obs yaml sw lw iv
                {| stdout := stdout w ++ out; fs := fs w |})
      as (rv & ov & Hv & ->).
    destruct rv as [[]|e].
    + destruct (render iv.1 (select obs) iv.2 sw lw) as [write|e]; simpl.
      * eexists. by rewrite <-app_assoc.
      * exists []. by rewrite app_nil_r.
    + simpl. eexists. by rewrite <-app_assoc.
  - exists []. by rewrite app_nil_r.
Qed.

(** C6, amended: the grouping prints a notice exactly for the identifiers
    whose short-channel values (dichroic family) or pupil-wheel values
    (single-channel family) are not all the same; the long channel is not
    examined. With or without a notice the loop ends normally, and the group
    of every identifier is the full sequence of its rows' values, in row
    order, on each channel. The notices are part of what the conversion has
    printed when it ends. *)
Theorem nonuniform_filters_noticed so obs t xml yaml cats sw lw w x :
  set_order_ok so →
  (length (ShortFilter t) = length (ObservationID t) →
   length (LongFilter t) = length (ObservationID t) →
   ∃ out,
     aggregate_dichroic so t w
     = (Ok (groups so t (ShortFilter t), groups so t (LongFilter t)),
        {| stdout := stdout w ++ out; fs := fs w |})
     ∧ (∀ line, line ∈ out ↔
          ∃ k, k ∈ ObservationID t
               ∧ non_uniform (rows_of k (ObservationID t) (ShortFilter t))
               ∧ line = note k)
     ∧ (∀ k, k ∈ ObservationID t →
          groups so t (ShortFilter t) !! k
            = Some (rows_of k (ObservationID t) (ShortFilter t))
          ∧ groups so t (LongFilter t) !! k
            = Some (rows_of k (ObservationID t) (LongFilter t)))
     ∧ (Instrument t ≠ [] → (∀ y, y ∈ Instrument t → y = x) →
        x ∈ ["NIRCAM"; "WFSC"] →
        ∀ line, line ∈ out →
          line ∈ stdout (write_yaml so obs t xml yaml cats sw lw w).2))
  ∧ (length (PupilWheel t) = length (ObservationID t) →
     ∃ out,
       aggregate_single so t w
       = (Ok (groups so t (PupilWheel t)),
          {| stdout := stdout w ++ out; fs := fs w |})
       ∧ (∀ line, line ∈ out ↔
            ∃ k, k ∈ ObservationID t
                 ∧ non_uniform (rows_of k (ObservationID t) (PupilWheel t))
                 ∧ line = note k)
       ∧ (∀ k, k ∈ ObservationID t →
            groups so t (PupilWheel t) !! k
              = Some (rows_of k (ObservationID t) (PupilWheel t)))
       ∧ (Instrument t ≠ [] → (∀ y, y ∈ Instrument t → y = x) →
          x = "NIRISS" →
          ∀ line, line ∈ out →
            line ∈ stdout (write_yaml so obs t xml yaml cats sw lw w).2)).
Proof.
  intros Hso. split.
  - intros Hs Hl. eexists. split; [apply (aggregate_dichroic_logs so t Hs Hl)|].
    split; [intros line; by apply elem_of_notices|]. split.
    + intros k Hk. rewrite !lookup_groups_order by done.
      by case_decide.
    + intros Hne Hall Hx line Hline.
      destruct (setup_out_dichroic so x t (select obs) (catalog_list cats)
                  sw lw Hx Hs Hl) as [r Hr].
      destruct (prepare_out so obs t xml cats sw lw x r _
                  (np_unique_single _ _ Hne Hall) Hr) as [r' Hr'].
      destruct (write_yaml_stdout so obs t xml yaml cats sw lw r' _ w Hr')
        as [post ->].
      rewrite !elem_of_app. auto.
  - intros Hp. eexists. split; [apply (aggregate_single_logs so t Hp)|].
    split; [intros line; by apply elem_of_notices|]. split.
    + intros k Hk. rewrite !lookup_groups_order by done.
      by case_decide.
    + intros Hne Hall -> line Hline.
      destruct (prepare_out so obs t xml cats sw lw "NIRISS" _ _
                  (np_unique_single _ _ Hne Hall)
                  (setup_single_logs so t (select obs) (catalog_list cats)
                     sw lw Hp)) as [r' Hr'].
      destruct (write_yaml_stdout so obs t xml yaml cats sw lw r' _ w Hr')
        as [post ->].
      rewrite !elem_of_app. auto.
Qed.

Lemma nonuniform_filters_noticed_witness :
  ∃ out,
    aggregate_single remove_dups ex_niriss_table w0
    = (Ok (groups remove_dups ex_niriss_table (PupilWheel ex_niriss_table)),
       {| stdout := stdout w0 ++ out; fs := fs w0 |})
    ∧ note (IdInt 1) ∈ out
    ∧ groups remove_dups ex_niriss_table (PupilWheel ex_niriss_table)
        !! IdInt 1
      = Some (rows_of (IdInt 1) (ObservationID ex_niriss_table)
                (PupilWheel ex_niriss_table))
    ∧ note (IdInt 1)
        ∈ stdout (write_yaml remove_dups ex_niriss_obs ex_niriss_table
                    "in.xml" "out.yaml" (CatStr "stars.cat") None None w0).2.
Proof.
  destruct (proj2 (nonuniform_filters_noticed remove_dups ex_niriss_obs
                     ex_niriss_table "in.xml" "out.yaml" (CatStr "stars.cat")
                     None None w0 "NIRISS" remove_dups_order_ok) eq_refl)
    as (out & Hrun & Hnotes & Hgroups & Hprinted).
  assert (note (IdInt 1) ∈ out) as Hnote.
  { apply Hnotes. exists (IdInt 1). split; [vm_compute; elem_tac|].
    split; [|done]. exists "F480M", "F430M".
    split_and!; [vm_compute; elem_tac..|done]. }
  exists out. split; [done|]. split; [done|]. split.
  - apply Hgroups. vm_compute. elem_tac.
  - apply Hprinted; [done| |done|done].
    intros y Hy. repeat (apply elem_of_cons in Hy as [->|Hy]; [done|]).
    by apply elem_of_nil in Hy.
Defined.

(** C6, as stated, fails for the long channel: the two rows of observation 1
    share their short filter and differ in their long filter, and the
    conversion prints the summary and the closing message only. *)
Lemma long_channel_unnoticed :
  rows_of (IdInt 1) (ObservationID ex_nircam_table) (ShortFilter ex_nircam_table)
    = ["F200W"; "F200W"]
  ∧ rows_of (IdInt 1) (ObservationID ex_nircam_table)
      (LongFilter ex_nircam_table) = ["F356W"; "F444W"]
  ∧ (aggregate_dichroic remove_dups ex_nircam_table w0).2 = w0
  ∧ stdout (write_yaml remove_dups ex_nircam_obs ex_nircam_table "in.xml"
              "out.yaml" (CatStr "stars.cat") (Some ["a.cat"; "b.cat"])
              (Some ["c.cat"; "d.cat"]) w0).2
    = summary_lines "in.xml" ex_nircam_table
      ++ [LF +:+ "Successfully wrote 2 observations to out.yaml"].
Proof. split_and!; by vm_compute. Qed.

(** * Further properties of [write_yaml] *)

(** ** Tables that select no branch *)

(** X1: a table without any exposure makes [used_instruments[0]] at line 95
    raise [IndexError]; the summary has been printed, no file is written. *)
Theorem empty_table_index_error so obs t xml yaml cats sw lw w :
  Instrument t = [] →
  write_yaml so obs t xml yaml cats sw lw w =
    (Raise IndexError,
     {| stdout := stdout w ++ summary_lines xml t; fs := fs w |}).
Proof.
  intros Hnil. rewrite write_yaml_run.
  rewrite (prepare_logs_empty so obs t xml cats sw lw); [done|].
  by rewrite Hnil.
Qed.

Lemma empty_table_index_error_witness :
  write_yaml remove_dups ex_niriss_obs ex_empty_table "in.xml" "out.yaml"
    (CatStr "stars.cat") None None w0 =
    (Raise IndexError,
     {| stdout := summary_lines "in.xml" ex_empty_table; fs := ∅ |}).
Proof.
  apply (empty_table_index_error remove_dups ex_niriss_obs ex_empty_table
           "in.xml" "out.yaml" (CatStr "stars.cat") None None w0).
  reflexivity.
Defined.

Lemma setup_other_logs so x t sel cats sw lw :
  x ∉ ["NIRCAM"; "WFSC"; "NIRISS"] →
  logs (setup so x t sel cats sw lw) (Ok NoVars) [].
Proof.
  intros Hx. unfold setup. rewrite !bool_decide_false; [apply logs_ret|..].
  - intros ->%list_elem_of_singleton. destruct Hx. elem_tac.
  - intros Hin. destruct Hx.
    apply elem_of_cons in Hin as [->|Hin]; [elem_tac|].
    apply list_elem_of_singleton in Hin as ->. elem_tac.
Qed.

(** X2: when the one instrument of the table is none of NIRCAM, WFSC and
    NIRISS (FGS included, although line 61 selects it and line 222 names it),
    no branch of lines 95-169 binds [all_param_lengths], and line 171 raises
    [UnboundLocalError]; only the summary is printed and no file is
    written. *)
Theorem other_instrument_unbound so obs t xml yaml cats sw lw w x :
  Instrument t ≠ [] → (∀ y, y ∈ Instrument t → y = x) →
  x ∉ ["NIRCAM"; "WFSC"; "NIRISS"] →
  write_yaml so obs t xml yaml cats sw lw w =
    (Raise (UnboundLocalError "all_param_lengths"),
     {| stdout := stdout w ++ summary_lines xml t; fs := fs w |}).
Proof.
  intros Hne Hall Hx. rewrite write_yaml_run.
  rewrite (prepare_logs_ok so obs t xml cats sw lw x NoVars []
             (np_unique_single x _ Hne Hall)
             (setup_other_logs so x t _ _ sw lw Hx)).
  rewrite (finish_invalid obs yaml sw lw (x, NoVars)
             (UnboundLocalError "all_param_lengths") []).
  - simpl. by rewrite !app_nil_r.
  - apply logs_lift.
Qed.

Lemma other_instrument_unbound_witness :
  write_yaml remove_dups ex_fgs_obs ex_fgs_table "in.xml" "out.yaml"
    (CatStr "stars.cat") None None w0 =
    (Raise (UnboundLocalError "all_param_lengths"),
     {| stdout := summary_lines "in.xml" ex_fgs_table; fs := ∅ |})
  ∧ write_yaml remove_dups ex_nircam_obs ex_miri_table "in.xml" "out.yaml"
      (CatStr "stars.cat") None None w0 =
    (Raise (UnboundLocalError "all_param_lengths"),
     {| stdout := summary_lines "in.xml" ex_miri_table; fs := ∅ |}).
Proof.
  split.
  - apply (other_instrument_unbound remove_dups ex_fgs_obs ex_fgs_table
             "in.xml" "out.yaml" (CatStr "stars.cat") None None w0 "FGS").
    + done.
    + by intros y ->%list_elem_of_singleton.
    + rewrite !elem_of_cons, elem_of_nil. intros [?|[?|[?|[]]]]; done.
  - apply (other_instrument_unbound remove_dups ex_nircam_obs ex_miri_table
             "in.xml" "out.yaml" (CatStr "stars.cat") None None w0 "MIRI").
    + done.
    + intros y Hy. repeat (apply elem_of_cons in Hy as [->|Hy]; [done|]).
      by apply elem_of_nil in Hy.
    + rewrite !elem_of_cons, elem_of_nil. intros [?|[?|[?|[]]]]; done.
Defined.

(** ** The only file touched *)

Lemma write_yaml_fs so obs t xml yaml cats sw lw w :
  (∃ e, (write_yaml so obs t xml yaml cats sw lw w).1 = Raise e
        ∧ fs (write_yaml so obs t xml yaml cats sw lw w).2 = fs w)
  ∨ (∃ write, (write_yaml so obs t xml yaml cats sw lw w).1 = Ok tt
              ∧ fs (write_yaml so obs t xml yaml cats sw lw w).2
                = <[yaml := text write]> (fs w)).
Proof.
  destruct (prepare_total so obs t xml cats sw lw) as (r & o & H & _).
  pose proof (write_yaml_run so obs t xml yaml cats sw lw w) as E.
  rewrite H in E.
  destruct (write_yaml so obs t xml yaml cats sw lw w) as [ra wa].
  destruct r as [iv|e]; [|left; exists e; by simplify_eq/=].
  destruct (finish_run obs yaml sw lw iv
              {| stdout := stdout w ++ o; fs := fs w |})
    as (rv & ov & Hv & E').
  rewrite E' in E. clear E'.
  destruct rv as [[]|e]; [|left; exists e; by simplify_eq/=].
  destruct (render iv.1 (select obs) iv.2 sw lw) as [write|e].
  - right. exists write. by simplify_eq/=.
  - left. exists e. by simplify_eq/=.
Qed.

(** X3: a run that raises, whatever the exception, leaves every file as it
    was, the output file included; a run that completes replaces the content
    of the output file and touches no other path. *)
Theorem only_output_file_written so obs t xml yaml cats sw lw w :
  (∀ e, (write_yaml so obs t xml yaml cats sw lw w).1 = Raise e →
        fs (write_yaml so obs t xml yaml cats sw lw w).2 = fs w)
  ∧ (∀ path, path ≠ yaml →
       fs (write_yaml so obs t xml yaml cats sw lw w).2 !! path
       = fs w !! path).
Proof.
  destruct (write_yaml_fs so obs t xml yaml cats sw lw w)
    as [(e & He & Hfs)|(write & Hok & Hfs)]; rewrite Hfs.
  - split; [done|]. by intros path _.
  - split; [intros e He; congruence|].
    intros path Hp. by rewrite lookup_insert_ne.
Qed.

Lemma only_output_file_written_witness :
  fs (write_yaml remove_dups ex_niriss_obs ex_niriss_table "in.xml" "out.yaml"
        (CatList ["a.cat"; "b.cat"]) None None w_used).2 = fs w_used
  ∧ fs (write_yaml remove_dups ex_niriss_obs ex_niriss_table "in.xml"
          "out.yaml" (CatStr "stars.cat") None None w_used).2 !! "notes.txt"
    = Some "kept".
Proof.
  split.
  - apply (proj1 (only_output_file_written remove_dups ex_niriss_obs
                    ex_niriss_table "in.xml" "out.yaml"
                    (CatList ["a.cat"; "b.cat"]) None None w_used)
             (ValueError (cardinality_message "out.yaml"))).
    by vm_compute.
  - etrans.
    + apply (proj2 (only_output_file_written remove_dups ex_niriss_obs
                      ex_niriss_table "in.xml" "out.yaml" (CatStr "stars.cat")
                      None None w_used) "notes.txt").
      done.
    + by vm_compute.
Defined.

(** ** Arguments that a family does not read *)

Lemma prepare_single so obs t xml cats sw lw x w :
  np_unique (Instrument t) = [x] →
  prepare so obs t xml cats sw lw w =
  (vars ← setup so x t (select obs) (catalog_list cats) sw lw; mret (x, vars))
    {| stdout := stdout w ++ summary_lines xml t; fs := fs w |}.
Proof.
  intros Hx. unfold prepare. by rewrite Hx, bind_run, print_summary_logs.
Qed.

(** X4: for a NIRCam or WFSC table [catalog_files] is not read: two runs that
    differ in this argument only behave alike. *)
Theorem dichroic_ignores_catalog_files so obs t xml yaml cats cats' sw lw w x :
  Instrument t ≠ [] → (∀ y, y ∈ Instrument t → y = x) →
  x ∈ ["NIRCAM"; "WFSC"] →
  write_yaml so obs t xml yaml cats sw lw w
  = write_yaml so obs t xml yaml cats' sw lw w.
Proof.
  intros Hne Hall Hx. rewrite !write_yaml_run.
  rewrite !(prepare_single _ _ _ _ _ _ _ x) by by apply np_unique_single.
  unfold setup. by rewrite !bool_decide_true by done.
Qed.

Lemma dichroic_ignores_catalog_files_witness :
  write_yaml remove_dups ex_nircam_obs ex_nircam_table4 "in.xml" "out.yaml"
    (CatStr "stars.cat") (Some ["a.cat"; "b.cat"]) (Some ["c.cat"; "d.cat"]) w0
  = write_yaml remove_dups ex_nircam_obs ex_nircam_table4 "in.xml" "out.yaml"
      (CatList []) (Some ["a.cat"; "b.cat"]) (Some ["c.cat"; "d.cat"]) w0.
Proof.
  apply (dichroic_ignores_catalog_files remove_dups ex_nircam_obs
           ex_nircam_table4 "in.xml" "out.yaml" (CatStr "stars.cat")
           (CatList []) (Some ["a.cat"; "b.cat"]) (Some ["c.cat"; "d.cat"])
           w0 "NIRCAM").
  - done.
  - intros y Hy. repeat (apply elem_of_cons in Hy as [->|Hy]; [done|]).
    by apply elem_of_nil in Hy.
  - by left.
Defined.

Lemma render_single_family x sel vars sw lw sw' lw' :
  x ∉ ["NIRCAM"; "WFSC"] →
  render x sel vars sw lw = render x sel vars sw' lw'.
Proof. intros Hx. unfold render. by rewrite !bool_decide_false by done. Qed.

(** X5: for a NIRISS table the per-channel catalogs [ps_cat_sw] and
    [ps_cat_lw] are not read: two runs that differ in these arguments only
    behave alike. *)
Theorem niriss_ignores_channel_catalogs so obs t xml yaml cats sw lw sw' lw' w :
  Instrument t ≠ [] → (∀ y, y ∈ Instrument t → y = "NIRISS") →
  write_yaml so obs t xml yaml cats sw lw w
  = write_yaml so obs t xml yaml cats sw' lw' w.
Proof.
  intros Hne Hall.
  assert ("NIRISS" ∉ ["NIRCAM"; "WFSC"]) as Hx.
  { rewrite !elem_of_cons, elem_of_nil. intros [?|[?|[]]]; done. }
  rewrite !write_yaml_run.
  assert (prepare so obs t xml cats sw lw w
          = prepare so obs t xml cats sw' lw' w) as <-.
  { rewrite !(prepare_single _ _ _ _ _ _ _ "NIRISS")
      by by apply np_unique_single.
    unfold setup. by rewrite !bool_decide_false by done. }
  destruct (prepare so obs t xml cats sw lw w) as [[iv|e] w1] eqn:Ep; [|done].
  apply prepare_ok_inv in Ep as (_ & Hiv & _).
  rewrite (np_unique_single _ _ Hne Hall) in Hiv. injection Hiv as Hiv.
  unfold finish. by rewrite (render_single_family iv.1 _ _ sw lw sw' lw')
    by by rewrite <-Hiv.
Qed.

Lemma niriss_ignores_channel_catalogs_witness :
  write_yaml remove_dups ex_niriss_obs ex_niriss_table "in.xml" "out.yaml"
    (CatStr "stars.cat") None None w0
  = write_yaml remove_dups ex_niriss_obs ex_niriss_table "in.xml" "out.yaml"
      (CatStr "stars.cat") (Some ["a.cat"]) (Some []) w0.
Proof.
  apply (niriss_ignores_channel_catalogs remove_dups ex_niriss_obs
           ex_niriss_table "in.xml" "out.yaml" (CatStr "stars.cat")
           None None (Some ["a.cat"]) (Some []) w0).
  - done.
  - intros y Hy. repeat (apply elem_of_cons in Hy as [->|Hy]; [done|]).
    by apply elem_of_nil in Hy.
Defined.

(** ** Names *)

Lemma prefix_refl (s : string) : String.prefix s s = true.
Proof.
  induction s as [|c s IH]; [done|]. cbn [String.prefix].
  by destruct (ascii_dec c c).
Qed.

Lemma prefix_re_split_head (s : string) :
  String.prefix (re_split_head s) s = true.
Proof.
  induction s as [|c s IH]; [done|]. cbn [re_split_head].
  destruct (String.prefix " (" (String c s) || String.prefix ")" (String c s)).
  - apply prefix_nil.
  - cbn [String.prefix]. by destruct (ascii_dec c c).
Qed.

Lemma re_split_head_no_close (s : string) :
  contains ")" (re_split_head s) = false.
Proof.
  induction s as [|c s IH]; [done|]. cbn [re_split_head].
  destruct (String.prefix " (" (String c s)); [done|]. cbn [orb].
  destruct (String.prefix ")" (String c s)) eqn:E; [done|].
  cbn [contains]. rewrite IH, orb_false_r.
  cbn [String.prefix] in *. destruct (ascii_dec ")" c); [|done].
  by rewrite prefix_nil in E.
Qed.

(** X6: the derived name is always a leading part of the label, and deriving
    a name from a derived name changes nothing. *)
Theorem obs_name_stable (label : string) :
  String.prefix (obs_name label) label = true
  ∧ obs_name (obs_name label) = obs_name label.
Proof.
  unfold obs_name at 1 3 4.
  destruct (contains " (" label && contains ")" label) eqn:E.
  - split; [apply prefix_re_split_head|]. unfold obs_name.
    by rewrite re_split_head_no_close, andb_false_r.
  - split; [apply prefix_refl|]. unfold obs_name. by rewrite E.
Qed.

(** ** The aligned sequences of the selection *)



(** ** The dichroic conversion, end to end *)



(** ** When the cardinality error is raised *)

(** X9: for a NIRISS proposal (columns of the same length) the conversion
    ends with the cardinality error exactly when the number of catalogs,
    after a single catalog has been repeated for every selected observation,
    or the number of distinct identifiers of the table differs from the
    number of selected observations. In particular a catalog list whose
    length is neither 1 nor that number is refused, not truncated. *)
Theorem niriss_cardinality_error_iff so obs t xml yaml cats sw lw w :
  set_order_ok so →
  Instrument t ≠ [] → (∀ y, y ∈ Instrument t → y = "NIRISS") →
  length (PupilWheel t) = length (ObservationID t) →
  (write_yaml so obs t xml yaml cats sw lw w).1
    = Raise (ValueError (cardinality_message yaml))
  ↔ ¬ (length (broadcast (catalog_list cats)
                 (length (observations (select obs))))
         = length (observations (select obs))
       ∧ length (remove_dups (ObservationID t))
         = length (observations (select obs))).
Proof.
  intros Hso Hne Hall Hlen.
  destruct (select_lengths obs) as [Hli Hln].
  rewrite write_yaml_run.
  rewrite (prepare_logs_ok so obs t xml cats sw lw "NIRISS" _ _
             (np_unique_single _ _ Hne Hall)
             (setup_single_logs so t _ _ sw lw Hlen)).
  pose proof (size_groups_order so t (PupilWheel t) Hso) as Hsize.
  set (cats' := broadcast (catalog_list cats)
                  (length (observations (select obs)))) in *.
  set (vars := SingleVars _ _ _).
  destruct (decide (length cats' = length (observations (select obs))
                    ∧ length (remove_dups (ObservationID t))
                      = length (observations (select obs))))
    as [[Hc Hd]|Hno].
  - rewrite finish_valid; last first.
    { eapply validate_pass; [done|].
      apply (remove_dups_all_eq (length (observations (select obs)))).
      intros a. rewrite Hsize, Hc, Hd, Hli, Hln, !elem_of_cons, elem_of_nil.
      intros [?|[?|[?|[?|[?|[]]]]]]; done. }
    split; [|intros Hn; destruct Hn; done].
    cbn [fst snd]. unfold render, vars.
    rewrite bool_decide_false, bool_decide_true; [|by left|]; last first.
    { rewrite !elem_of_cons, elem_of_nil. intros [?|[?|[]]]; done. }
    destruct (render_single_loop_bounds (select obs)
                (groups so t (PupilWheel t)) cats'
                (seq 0 (length (observations (select obs)))) write_header)
      as [(write & -> & _)|(i & _ & _ & ->)]; [|done..].
    intros i Hi%elem_of_seq_0. lia.
  - split; [done|]. intros _.
    assert (∃ a b lens,
              all_param_lengths vars = Some lens
              ∧ a ∈ lens ∧ b ∈ lens ∧ a ≠ b) as (a & b & lens & Hv & Ha & Hb & Hab).
    { destruct (decide (length cats' = length (observations (select obs))))
        as [Hc|Hc].
      - exists (size (groups so t (PupilWheel t))),
          (length (observations (select obs))).
        eexists. split; [done|]. split_and!; [elem_tac..|].
        rewrite Hsize. tauto.
      - exists (length cats'), (length (observations (select obs))).
        eexists. split; [done|]. split_and!; [elem_tac..|done]. }
    by rewrite (finish_invalid obs yaml sw lw ("NIRISS", vars) _ _ _
                  (validate_mismatch vars lens yaml a b Hv Ha Hb Hab)).
Qed.

Lemma niriss_cardinality_error_iff_witness :
  (write_yaml remove_dups ex_niriss_obs ex_niriss_table "in.xml" "out.yaml"
     (CatList ["a.cat"; "b.cat"]) None None w0).1
  = Raise (ValueError (cardinality_message "out.yaml")).
Proof.
  apply (niriss_cardinality_error_iff remove_dups ex_niriss_obs ex_niriss_table
           "in.xml" "out.yaml" (CatList ["a.cat"; "b.cat"]) None None w0).
  - apply remove_dups_order_ok.
  - done.
  - intros y Hy. repeat (apply elem_of_cons in Hy as [->|Hy]; [done|]).
    by apply elem_of_nil in Hy.
  - reflexivity.
  - intros [Hc _]. vm_compute in Hc. lia.
Defined.

(** X10: for a NIRCAM or WFSC proposal (columns of the same length, both
    catalog lists given) the conversion ends with the cardinality error
    exactly when one of the two catalog lists or the set of distinct
    identifiers has not as many entries as there are selected observations;
    a single catalog is not repeated in this family. *)
Theorem dichroic_cardinality_error_iff so obs t xml yaml cats cs cl w x :
  set_order_ok so →
  Instrument t ≠ [] → (∀ y, y ∈ Instrument t → y = x) →
  x ∈ ["NIRCAM"; "WFSC"] →
  length (ShortFilter t) = length (ObservationID t) →
  length (LongFilter t) = length (ObservationID t) →
  (write_yaml so obs t xml yaml cats (Some cs) (Some cl) w).1
    = Raise (ValueError (cardinality_message yaml))
  ↔ ¬ (length cs = length (observations (select obs))
       ∧ length cl = length (observations (select obs))
       ∧ length (remove_dups (ObservationID t))
         = length (observations (select obs))).
Proof.
  intros Hso Hne Hall Hx Hs Hl.
  destruct (select_lengths obs) as [Hli Hln].
  rewrite write_yaml_run.
  rewrite (prepare_logs_ok so obs t xml cats (Some cs) (Some cl) x _ _
             (np_unique_single _ _ Hne Hall)
             (setup_dichroic_logs so x t _ _ cs cl Hx Hs Hl)).
  pose proof (size_groups_order so t (ShortFilter t) Hso) as Hsize.
  pose proof (size_groups_order so t (LongFilter t) Hso) as Hsize'.
  set (vars := DichroicVars _ _ _).
  destruct (decide (length cs = length (observations (select obs))
                    ∧ length cl = length (observations (select obs))
                    ∧ length (remove_dups (ObservationID t))
                      = length (observations (select obs))))
    as [(Hcs & Hcl & Hd)|Hno].
  - rewrite finish_valid; last first.
    { eapply validate_pass; [done|].
      apply (remove_dups_all_eq (length (observations (select obs)))).
      intros a. rewrite Hsize, Hsize', Hcs, Hcl, Hd, Hli, Hln.
      rewrite !elem_of_cons, elem_of_nil.
      intros [?|[?|[?|[?|[?|[?|[?|[]]]]]]]]; done. }
    split; [|intros Hn; destruct Hn; done].
    cbn [fst snd]. unfold render, vars. rewrite bool_decide_true by done.
    destruct (render_dichroic_loop_bounds (select obs)
                (groups so t (ShortFilter t)) (groups so t (LongFilter t))
                cs cl (seq 0 (length (observations (select obs))))
                write_header)
      as [(write & -> & _)|(i & pos & _ & _ & _ & ->)]; [| |done..].
    + intros i Hi%elem_of_seq_0. lia.
    + intros k. apply groups_same_keys.
  - split; [done|]. intros _.
    assert (∃ a b lens,
              all_param_lengths vars = Some lens
              ∧ a ∈ lens ∧ b ∈ lens ∧ a ≠ b) as (a & b & lens & Hv & Ha & Hb & Hab).
    { destruct (decide (length cs = length (observations (select obs))))
        as [Hcs|Hcs];
        [destruct (decide (length cl = length (observations (select obs))))
           as [Hcl|Hcl]|].
      - exists (size (groups so t (ShortFilter t))),
          (length (observations (select obs))).
        eexists. split; [done|]. split_and!; [elem_tac..|].
        rewrite Hsize. tauto.
      - exists (length cl), (length (observations (select obs))).
        eexists. split; [done|]. split_and!; [elem_tac..|done].
      - exists (length cs), (length (observations (select obs))).
        eexists. split; [done|]. split_and!; [elem_tac..|done]. }
    by rewrite (finish_invalid obs yaml (Some cs) (Some cl) (x, vars) _ _ _
                  (validate_mismatch vars lens yaml a b Hv Ha Hb Hab)).
Qed.

Lemma dichroic_cardinality_error_iff_witness :
  (write_yaml remove_dups ex_nircam_obs ex_nircam_table4 "in.xml" "out.yaml"
     (CatStr "stars.cat") (Some ["a.cat"]) (Some ["c.cat"; "d.cat"]) w0).1
  = Raise (ValueError (cardinality_message "out.yaml")).
Proof.
  apply (dichroic_cardinality_error_iff remove_dups ex_nircam_obs
           ex_nircam_table4 "in.xml" "out.yaml" (CatStr "stars.cat")
           ["a.cat"] ["c.cat"; "d.cat"] w0 "NIRCAM").
  - apply remove_dups_order_ok.
  - done.
  - intros y Hy. repeat (apply elem_of_cons in Hy as [->|Hy]; [done|]).
    by apply elem_of_nil in Hy.
  - by left.
  - reflexivity.
  - reflexivity.
  - intros [Hc _]. vm_compute in Hc. lia.
Defined.

(** ** A completed conversion uses the whole table *)

Lemma covered_by_distinct_keys {A} `{EqDecision A} (keys ids : list A) :
  NoDup keys → (∀ k, k ∈ keys → k ∈ ids) →
  length (remove_dups ids) = length keys →
  ∀ k, k ∈ ids ↔ k ∈ keys.
Proof.
  intros Hnd Hsub Hlen k. split; [|apply Hsub].
  assert (keys ⊆+ remove_dups ids) as Hsm.
  { apply NoDup_submseteq; [done|]. intros y Hy.
    by apply elem_of_remove_dups, Hsub. }
  apply submseteq_length_Permutation in Hsm; [|lia].
  intros Hk%elem_of_remove_dups. by rewrite Hsm.
Qed.

Lemma StronglySorted_lt_NoDup (l : list nat) : StronglySorted lt l → NoDup l.
Proof.
  induction 1 as [|x l Hs IH Hx]; constructor; [|done].
  intros Hin. eapply Forall_forall in Hx; [|done]. lia.
Qed.

(** X11: when the conversion completes, the identifiers of the table are
    exactly the keys the rendering looked up (the observation numbers of the
    selected observations in the dichroic family, the indices [0 .. N-1] in
    the single-channel family): no exposure row of the table is left out of
    the file. *)
Theorem completed_run_covers_table so obs t xml yaml cats sw lw w w' x :
  set_order_ok so → x ∈ Instrument t →
  write_yaml so obs t xml yaml cats sw lw w = (Ok tt, w') →
  ∀ k, k ∈ ObservationID t ↔ k ∈ render_keys x (select obs).
Proof.
  intros Hso Hin
    (iv & lens & write & Hx & Hshape & Hlens & Hone & Hr & _)%write_yaml_ok_inv.
  apply np_unique_single_inv in Hx as [_ Hx]. apply Hx in Hin as ->.
  destruct (select_lengths obs) as [Hli Hln].
  destruct iv as [x vars]. cbn [fst snd] in *.
  destruct Hshape as [(Hd & (cs & cl & -> & -> & ->) & _)
                     |[(Hnd & Hn & -> & _)|(_ & _ & ->)]]; [| |done].
  - injection Hlens as <-.
    assert (size (groups so t (ShortFilter t))
            = length (i_observations (select obs))) as Hsize
      by (apply (remove_dups_one _ _ _ Hone); elem_tac).
    rewrite size_groups_order in Hsize by done.
    unfold render in Hr. unfold render_keys.
    rewrite bool_decide_true in Hr |- * by done.
    apply render_dichroic_loop_inv in Hr as (blocks & Hb & _).
    apply covered_by_distinct_keys.
    + apply NoDup_fmap_2.
      * intros a b [= Hab]. lia.
      * rewrite select_i_observations.
        apply StronglySorted_lt_NoDup, supported_positions_sorted.
    + intros k (pos & -> & [i Hi]%list_elem_of_lookup)%list_elem_of_fmap.
      assert (seq 0 (length (observations (select obs))) !! i = Some i) as Hs.
      { apply lookup_seq. split; [done|]. apply lookup_lt_Some in Hi. lia. }
      destruct (Forall2_lookup_l _ _ _ _ _ Hb Hs)
        as (blk & _ & pos' & name & fs' & fl & c1 & c2 & Hp & _ & Hfs & _).
      simplify_eq. rewrite lookup_groups_order in Hfs by done.
      by case_decide.
    + by rewrite length_fmap.
  - injection Hlens as <-.
    assert (size (groups so t (PupilWheel t))
            = length (observations (select obs))) as Hsize
      by (apply (remove_dups_one _ _ _ Hone); elem_tac).
    rewrite size_groups_order in Hsize by done.
    apply list_elem_of_singleton in Hn as ->.
    unfold render in Hr. unfold render_keys.
    rewrite bool_decide_false in Hr |- * by done.
    rewrite bool_decide_true in Hr by (by left).
    apply render_single_loop_inv in Hr as (blocks & Hb & _).
    apply covered_by_distinct_keys.
    + apply NoDup_fmap_2; [|apply NoDup_seq]. intros a b [= Hab]. lia.
    + intros k (i & -> & Hi)%list_elem_of_fmap.
      assert (seq 0 (length (observations (select obs))) !! i = Some i) as Hs.
      { apply lookup_seq. split; [done|]. apply elem_of_seq_0 in Hi. lia. }
      destruct (Forall2_lookup_l _ _ _ _ _ Hb Hs)
        as (blk & _ & pos & name & fl & c & _ & _ & Hfl & _).
      rewrite lookup_groups_order in Hfl by done. by case_decide.
    + by rewrite length_fmap, length_seq.
Qed.

Lemma completed_run_covers_table_witness :
  IdInt 3 ∈ ObservationID ex_nircam_table4
  ↔ IdInt 3 ∈ render_keys "NIRCAM" (select ex_nircam_obs).
Proof.
  apply (completed_run_covers_table remove_dups ex_nircam_obs ex_nircam_table4
           "in.xml" "out.yaml" (CatStr "stars.cat") (Some ["a.cat"; "b.cat"])
           (Some ["c.cat"; "d.cat"]) w0
           (write_yaml remove_dups ex_nircam_obs ex_nircam_table4 "in.xml"
              "out.yaml" (CatStr "stars.cat") (Some ["a.cat"; "b.cat"])
              (Some ["c.cat"; "d.cat"]) w0).2).
  - apply remove_dups_order_ok.
  - by left.
  - by vm_compute.
Defined.

(** ** What a completed conversion has printed *)

Lemma notices_are_notes g ks :
  Forall (λ line, ∃ k, k ∈ ks ∧ line = note k) (notices g ks).
Proof.
  apply Forall_forall. unfold notices.
  intros line (k & -> & Hk%list_elem_of_filter)%list_elem_of_fmap.
  exists k. tauto.
Qed.

Lemma aggregate_single_ok_out so t d out :
  logs (aggregate_single so t) (Ok d) out →
  Forall (λ line, ∃ k, k ∈ so (ObservationID t) ∧ line = note k) out.
Proof.
  intros H.
  destruct (decide (length (PupilWheel t) = length (ObservationID t))) as [E|E].
  - destruct (logs_det _ _ _ _ _ H (aggregate_single_logs so t E)) as [_ ->].
    apply notices_are_notes.
  - unfold aggregate_single in H. destruct (so (ObservationID t)) as [|k ks].
    + by destruct (logs_det _ _ _ _ _ H (logs_ret _)) as [_ ->].
    + by destruct (logs_det _ _ _ _ _ H
                     (aggregate_single_loop_raise _ _ k ks ∅ E)).
Qed.

Lemma aggregate_dichroic_ok_out so t d out :
  logs (aggregate_dichroic so t) (Ok d) out →
  Forall (λ line, ∃ k, k ∈ so (ObservationID t) ∧ line = note k) out.
Proof.
  intros H.
  destruct (decide (length (ShortFilter t) = length (ObservationID t)
                    ∧ length (LongFilter t) = length (ObservationID t)))
    as [[Es El]|E].
  - destruct (logs_det _ _ _ _ _ H (aggregate_dichroic_logs so t Es El))
      as [_ ->].
    apply notices_are_notes.
  - unfold aggregate_dichroic in H. destruct (so (ObservationID t)) as [|k ks].
    + by destruct (logs_det _ _ _ _ _ H (logs_ret _)) as [_ ->].
    + destruct (aggregate_dichroic_loop_raise (ShortFilter t) (LongFilter t)
                  (ObservationID t) k ks (∅, ∅)) as [o Ho].
      { apply not_and_l in E. tauto. }
      by destruct (logs_det _ _ _ _ _ H Ho).
Qed.

Lemma setup_ok_out so x t sel cats sw lw vars out :
  logs (setup so x t sel cats sw lw) (Ok vars) out →
  Forall (λ line, ∃ k, k ∈ so (ObservationID t) ∧ line = note k) out.
Proof.
  unfold setup. case_bool_decide as Hd; [|case_bool_decide as Hs].
  - destruct (aggregate_dichroic_total so t) as ([d|e] & oa & Ha & _).
    + intros HL. pose proof (aggregate_dichroic_ok_out so t d oa Ha) as Hout.
      match type of HL with
      | logs ?c _ _ => assert (∃ r, logs c r oa) as [r Hr]
      end.
      { destruct sw as [l1|]; [destruct lw as [l2|]|]; eexists;
          (eapply logs_bind_quiet; [done|]).
        - apply logs_bind_lift, logs_bind_lift, logs_ret.
        - apply logs_bind_lift, logs_bind_raise, logs_lift.
        - apply logs_bind_raise, logs_lift. }
      by destruct (logs_det _ _ _ _ _ HL Hr) as [_ ->].
    + intros HL.
      by destruct (logs_det _ _ _ _ _ HL (logs_bind_raise _ _ _ _ Ha)).
  - destruct (aggregate_single_total so t) as ([d|e] & oa & Ha & _).
    + intros HL. pose proof (aggregate_single_ok_out so t d oa Ha) as Hout.
      match type of HL with
      | logs ?c _ _ => assert (∃ r, logs c r oa) as [r Hr]
      end.
      { eexists. eapply logs_bind_quiet; [done|apply logs_ret]. }
      by destruct (logs_det _ _ _ _ _ HL Hr) as [_ ->].
    + intros HL.
      by destruct (logs_det _ _ _ _ _ HL (logs_bind_raise _ _ _ _ Ha)).
  - intros HL. by destruct (logs_det _ _ _ _ _ HL (logs_ret _)) as [_ ->].
Qed.

Lemma prepare_ok_out so obs t xml cats sw lw iv out :
  logs (prepare so obs t xml cats sw lw) (Ok iv) out →
  ∃ mid, out = summary_lines xml t ++ mid
         ∧ Forall (λ line, ∃ k, k ∈ so (ObservationID t) ∧ line = note k) mid.
Proof.
  intros H. destruct (np_unique (Instrument t)) as [|x [|y u]] eqn:Eu.
  - by destruct (logs_det _ _ _ _ _ H
                   (prepare_logs_empty so obs t xml cats sw lw Eu)).
  - destruct (setup_total so x t (select obs) (catalog_list cats) sw lw)
      as ([vars|e] & o & Hs & _).
    + destruct (logs_det _ _ _ _ _ H
                  (prepare_logs_ok _ obs _ xml _ _ _ _ _ _ Eu Hs)) as [_ ->].
      exists o. split; [done|]. by eapply setup_ok_out.
    + by destruct (logs_det _ _ _ _ _ H
                     (prepare_logs_raise _ obs _ xml _ _ _ _ _ _ Eu Hs)).
  - assert (1 < length (np_unique (Instrument t))) as Hlen
      by (rewrite Eu; simpl; lia).
    by destruct (logs_det _ _ _ _ _ H
                   (prepare_logs_mixed so obs t xml cats sw lw Hlen)).
Qed.

(** X12: a conversion that completes has printed, after what was there
    before, the summary of the table, then nothing but notices about
    identifiers of the table, and last the closing message with the number
    of selected observations and the path of the output file. *)
Theorem completion_reported so obs t xml yaml cats sw lw w w' :
  write_yaml so obs t xml yaml cats sw lw w = (Ok tt, w') →
  ∃ mid,
    stdout w' = stdout w ++ summary_lines xml t ++ mid
                  ++ [success_message (length (observations (select obs))) yaml]
    ∧ Forall (λ line, ∃ k, k ∈ so (ObservationID t) ∧ line = note k) mid.
Proof.
  destruct (prepare_total so obs t xml cats sw lw) as (r & out & H & _).
  rewrite write_yaml_run, H. destruct r as [iv|e]; [|done].
  destruct (prepare_ok_out so obs t xml cats sw lw iv out H)
    as (mid & -> & Hmid).
  destruct (finish_run obs yaml sw lw iv
              {| stdout := stdout w ++ summary_lines xml t ++ mid;
                 fs := fs w |}) as (rv & ov & Hv & ->).
  destruct rv as [[]|e]; [|done].
  destruct (render iv.1 (select obs) iv.2 sw lw) as [write|e]; [|done].
  intros [= <-]. exists mid. split; [|done].
  cbn [stdout]. unfold success_message. by rewrite <-!app_assoc.
Qed.

Lemma completion_reported_witness :
  ∃ mid,
    stdout (write_yaml remove_dups ex_niriss_obs ex_niriss_table "in.xml"
              "out.yaml" (CatStr "stars.cat") None None w_used).2
    = stdout w_used ++ summary_lines "in.xml" ex_niriss_table ++ mid
        ++ [success_message 3 "out.yaml"]
    ∧ Forall (λ line, ∃ k, k ∈ remove_dups (ObservationID ex_niriss_table)
                           ∧ line = note k) mid.
Proof.
  apply (completion_reported remove_dups ex_niriss_obs ex_niriss_table
           "in.xml" "out.yaml" (CatStr "stars.cat") None None w_used).
  by vm_compute.
Defined.
